(** * The process-agent collector: scheduling, dispatch and real-time control

    A shallow embedding of [cmd/process-agent/collector.go].  Every method of
    [Collector] is a computation in a small state-and-trace monad: the state is
    the [Collector] struct, the trace records, in program order, each call
    that leaves the file (logger, check, queue, forwarder, channel send). *)

From Stdlib Require Import ZArith Lia.
From stdpp Require Import base option list strings gmap pretty.

Local Open Scope Z_scope.

(** ** Machine integers and durations *)

(** A two's complement integer of [bits] bits, as Go's conversions and
    arithmetic wrap it. *)
Definition wrap_signed (bits x : Z) : Z :=
  (x + 2 ^ (bits - 1)) `mod` 2 ^ bits - 2 ^ (bits - 1).

Definition int32 (x : Z) : Z := wrap_signed 32 x.
Definition int64 (x : Z) : Z := wrap_signed 64 x.

Definition in_int32 (x : Z) : Prop := - 2 ^ 31 <= x < 2 ^ 31.

(** [time.Duration] is an [int64] number of nanoseconds. *)
Abbreviation Duration := Z (only parsing).
Definition Second : Duration := 1000000000.

(** [time.Duration(n) * time.Second] *)
Definition seconds (n : Z) : Duration := int64 (int64 n * Second).

(** ** Data exchanged with the packages the collector imports *)

(** The message bodies the collector tells apart (type switches in
    [getContainerCount] and [messagesToResults]); the slice argument is the
    one whose length is reported as the container count. *)
Inductive MessageBody :=
  | CollectorProc (Containers : list string)
  | CollectorRealTime (ContainerStats : list string)
  | CollectorContainer (Containers : list string)
  | CollectorContainerRealTime (Stats : list string)
  | CollectorConnections (payload : string)
  | CollectorManifest (payload : string)
  | OtherMessage (payload : string).

(** [model.CollectorStatus] *)
Record CollectorStatus := {
  ActiveClients : Z;   (* int32 *)
  Interval : Z         (* int32, seconds *)
}.

(** A decoded backend message: a [ResCollector] (header type
    [TypeResCollector]) or anything else, with its header type.  [Status] is
    the record the message's status pointer leads to; a [ResCollector] without
    one, whose nil pointer [updateRTStatus] would dereference, has no
    counterpart here, and nothing below is stated about such an answer. *)
Inductive Message :=
  | ResCollector (Message : string) (Status : CollectorStatus)
  | OtherType (headerType : Z).

(** [forwarder.Response] *)
Record Response := {
  Domain : string;
  Body : list Byte.byte;
  StatusCode : Z;
  Err : option string
}.

(** Keys of the [headers] package, as [http.Header] is used with them. *)
Inductive HeaderKey :=
  | TimestampHeader | HostHeader | ProcessVersionHeader | ContainerCountHeader
  | ContentTypeHeader | ClusterIDHeader | EVPOriginHeader
  | EVPOriginVersionHeader | ContentEncodingHeader.

Global Instance HeaderKey_eq_dec : EqDecision HeaderKey.
Proof. solve_decision. Defined.

Definition Header := list (HeaderKey * string).

(** [http.Header.Set]: the value replaces whatever the key had. *)
Definition header_Set (k : HeaderKey) (v : string) (h : Header) : Header :=
  (k, v) :: filter (fun kv => kv.1 <> k) h.

(** [http.Header.Get]: the value of the key, the empty string without one. *)
Fixpoint header_Get (k : HeaderKey) (h : Header) : string :=
  match h with
  | [] => String.EmptyString
  | (k', v) :: h' => if decide (k' = k) then v else header_Get k h'
  end.

Record checkPayload := {
  body : list Byte.byte;
  headers : Header
}.

Record checkResult := {
  name : string;
  payloads : list checkPayload;
  sizeInBytes : Z      (* int64 *)
}.

Definition Weight (cr : checkResult) : Z := sizeInBytes cr.
Definition Type_ (cr : checkResult) : string := name cr.

(** The outcome of a call that returns [(value, error)]. *)
Inductive result (A : Type) :=
  | Ok (a : A)
  | Failed (err : string).
Arguments Ok {A} a.
Arguments Failed {A} err.

(** [checks.RunOptions] and [checks.RunResult] *)
Record RunOptions := { RunStandard : bool; RunRealTime : bool }.
Record RunResult := { Standard : list MessageBody; RealTime_ : list MessageBody }.

(** The [checks.Check] interface.  [Run] receives the group id. *)
Record Check := {
  Name : string;
  RealTime : bool;
  ShouldSaveLastRun : bool;
  Run : Z -> result (list MessageBody)
}.

(** The [checks.CheckWithRealTime] interface.  [RunWithOptions] receives the
    group id generator: here the value of the counter when it is called; it
    answers with the number of ids it drew and its result. *)
Record CheckWithRealTime := {
  asCheck :> Check;
  RealTimeName : string;
  RunWithOptions : Z -> RunOptions -> nat * result RunResult
}.

(** The part of [config.AgentConfig] the collector reads. *)
Record AgentConfig := {
  HostName : string;
  OrchestrationCollectionEnabled : bool;
  IsManifestCollectionEnabled : bool;
  CheckInterval : string -> Duration
}.

(** The five [api.WeightedQueue]s of the collector, by the field holding
    them. *)
Inductive Queue :=
  | processResults | rtProcessResults | eventResults
  | connectionsResults | podResults.

Global Instance Queue_eq_dec : EqDecision Queue.
Proof. solve_decision. Defined.

(** The backend sinks of [forwarder.Forwarder]. *)
Inductive Sink :=
  | SubmitProcessChecks | SubmitRTProcessChecks | SubmitContainerChecks
  | SubmitRTContainerChecks | SubmitConnectionChecks
  | SubmitOrchestratorManifests | SubmitOrchestratorChecks (payloadType : Z)
  | SubmitProcessDiscoveryChecks | SubmitProcessEventChecks.

(** ** The collector *)

Record Collector := {
  realTimeEnabled : bool;
  groupID : Z;                       (* int32 *)
  cfg : AgentConfig;
  runCounters : gmap string Z;       (* sync.Map: name -> int32 *)
  enabledChecks : list Check;
  realTimeInterval : Duration;
  runRealTime : bool;
  dropCheckPayloads : list string
}.

Definition set_realTimeEnabled (b : bool) (l : Collector) : Collector :=
  {| realTimeEnabled := b; groupID := groupID l; cfg := cfg l;
     runCounters := runCounters l; enabledChecks := enabledChecks l;
     realTimeInterval := realTimeInterval l; runRealTime := runRealTime l;
     dropCheckPayloads := dropCheckPayloads l |}.

Definition set_groupID (g : Z) (l : Collector) : Collector :=
  {| realTimeEnabled := realTimeEnabled l; groupID := g; cfg := cfg l;
     runCounters := runCounters l; enabledChecks := enabledChecks l;
     realTimeInterval := realTimeInterval l; runRealTime := runRealTime l;
     dropCheckPayloads := dropCheckPayloads l |}.

Definition set_runCounters (m : gmap string Z) (l : Collector) : Collector :=
  {| realTimeEnabled := realTimeEnabled l; groupID := groupID l; cfg := cfg l;
     runCounters := m; enabledChecks := enabledChecks l;
     realTimeInterval := realTimeInterval l; runRealTime := runRealTime l;
     dropCheckPayloads := dropCheckPayloads l |}.

Definition set_realTimeInterval (d : Duration) (l : Collector) : Collector :=
  {| realTimeEnabled := realTimeEnabled l; groupID := groupID l; cfg := cfg l;
     runCounters := runCounters l; enabledChecks := enabledChecks l;
     realTimeInterval := d; runRealTime := runRealTime l;
     dropCheckPayloads := dropCheckPayloads l |}.

Definition set_dropCheckPayloads (d : list string) (l : Collector) : Collector :=
  {| realTimeEnabled := realTimeEnabled l; groupID := groupID l; cfg := cfg l;
     runCounters := runCounters l; enabledChecks := enabledChecks l;
     realTimeInterval := realTimeInterval l; runRealTime := runRealTime l;
     dropCheckPayloads := d |}.

(** ** Effects *)

Inductive LogLine :=
  | UnableToRunCheck (check err : string)
  | FinishedCheck (check : string) (runCounter : Z)
  | FinishedCheckFirst5 (check : string) (runCounter : Z)
  | FinishCheck (check : string) (runCounter : Z)
  | UnableToEncode
  | UnableToSubmit (err : string)
  | ErrorFrom (check domain err : string)
  | InvalidResponse (check domain : string) (code : Z)
  | CouldNotDecode (check : string)
  | ErrorInResponse (check domain msg : string)
  | UnexpectedResponseType (check domain : string) (type : Z)
  | DisablingRealTime
  | EnablingRealTime (activeClients : Z)
  | IntervalUpdated (d : Duration).

Inductive Event :=
  | EvLog (line : LogLine)
  | EvLastCollectTime (start : Z)                 (* updateLastCollectTime *)
  | EvRun (check : string) (groupID : Z)          (* c.Run / c.RunWithOptions *)
  | EvStoreCheckOutput (check : string) (out : option (list MessageBody))
  | EvAdd (q : Queue) (r : checkResult)           (* results.Add *)
  | EvProcContainerCount (ms : list MessageBody)  (* updateProcContainerCount *)
  | EvSubmit (s : Sink) (payload : checkPayload)  (* fwd.Submit... *)
  | EvSend (d : Duration).                        (* l.rtIntervalCh <- d *)

(** A method of [*Collector]: from the struct to a value, the struct as the
    method leaves it, and what it did outside, oldest first. *)
Definition M (A : Type) : Type := Collector -> A * Collector * list Event.

Global Instance M_ret : MRet M := fun A a l => (a, l, []).
Global Instance M_bind : MBind M := fun A B f m l =>
  let '(a, l1, t1) := m l in
  let '(b, l2, t2) := f a l1 in
  (b, l2, t1 ++ t2).

Definition get {A} (f : Collector -> A) : M A := fun l => (f l, l, []).
Definition update (f : Collector -> Collector) : M unit := fun l => (tt, f l, []).
Definition emit (e : Event) : M unit := fun l => (tt, l, [e]).
Definition skip : M unit := mret tt.

Definition state_of {A} (r : A * Collector * list Event) : Collector := r.1.2.
Definition trace_of {A} (r : A * Collector * list Event) : list Event := r.2.
Definition value_of {A} (r : A * Collector * list Event) : A := r.1.1.

(** [for _, x := range xs { body x }] *)
Fixpoint for_range {A} (xs : list A) (body : A -> M unit) : M unit :=
  match xs with
  | [] => skip
  | x :: xs' => body x ;; for_range xs' body
  end.

(** ** The real-time controller *)

(** What the loop of [updateRTStatus] computes. *)
Record rtScan := {
  shouldEnableRT : bool;
  maxInterval : Duration;
  activeClients : Z
}.

Definition rtScan_step (acc : rtScan) (s : CollectorStatus) : rtScan :=
  let interval := seconds (Interval s) in
  {| shouldEnableRT := shouldEnableRT acc || bool_decide (ActiveClients s > 0);
     activeClients :=
       if bool_decide (ActiveClients s > 0)
       then int32 (activeClients acc + ActiveClients s)
       else activeClients acc;
     maxInterval :=
       if bool_decide (interval > maxInterval acc) then interval
       else maxInterval acc |}.

Definition rtScan_init : rtScan :=
  {| shouldEnableRT := false; maxInterval := seconds 0; activeClients := 0 |}.

Definition updateRTStatus (statuses : list CollectorStatus) : M unit :=
  curEnabled ← get realTimeEnabled;
  let scan := foldl rtScan_step rtScan_init statuses in
  (if curEnabled && negb (shouldEnableRT scan) then
     emit (EvLog DisablingRealTime);;
     update (set_realTimeEnabled false)
   else if negb curEnabled && shouldEnableRT scan then
     emit (EvLog (EnablingRealTime (activeClients scan)));;
     update (set_realTimeEnabled true)
   else skip);;
  stored ← get realTimeInterval;
  if bool_decide (maxInterval scan <> stored) then
    update (set_realTimeInterval (maxInterval scan));;
    cur ← get realTimeInterval;
    (if bool_decide (cur <= 0)
     then update (set_realTimeInterval (2 * Second)) else skip);;
    checks ← get enabledChecks;
    for_range checks (fun _ =>
      d ← get realTimeInterval; emit (EvSend d));;
    d ← get realTimeInterval;
    emit (EvLog (IntervalUpdated d))
  else skip.

(** ** What the imported packages provide

    Constants and functions of [checks], [config], [headers], [version],
    [clustername], [orchestrator] and [api] that the collector uses and that
    are declared outside this file. *)
Class Env := {
  Process_Name : string;
  Process_RealTimeName : string;
  Container_Name : string;
  RTContainer_Name : string;
  Connections_Name : string;
  Pod_Name : string;
  ProcessDiscovery_Name : string;
  ProcessEvents_Name : string;
  PodCheckName : string;                      (* config.PodCheckName *)
  ProtobufContentType : string;
  ZSTDContentEncoding : string;
  AgentVersionNumber : string;                (* version.Agent().GetNumber() *)
  AgentVersion : string;                      (* version.AgentVersion *)
  K8sPod : Z;                                 (* int(orchestrator.K8sPod) *)
  GetClusterID : result string;               (* clustername.GetClusterID() *)
  EncodePayload : MessageBody -> result (list Byte.byte);
  DecodeMessage : list Byte.byte -> result Message
}.

(** The names the dispatcher switches on, in the order of its cases. *)
Definition dispatch_names `{Env} : list string :=
  [Process_Name; Process_RealTimeName; Container_Name; RTContainer_Name;
   Connections_Name; Pod_Name; ProcessDiscovery_Name; ProcessEvents_Name].

(** The [forwarder.Forwarder] interface: a submission answers with an error
    or with the responses read from its channel until it is closed, and
    leaves the forwarder in a new state. *)
Class Forwarder (F : Type) :=
  Submit : F -> Sink -> checkPayload -> F * result (list Response).

Section Collector.
Context `{Env}.

(** ** Counters and the duration log *)

Definition nextRunCounter (name : string) : M Z :=
  rc ← get (fun l => runCounters l !! name);
  let runCounter := match rc with
                    | Some rc => int32 (rc + 1)
                    | None => 1
                    end in
  update (fun l => set_runCounters (<[name := runCounter]> (runCounters l)) l);;
  mret runCounter.

(** The elapsed time [d] of the message is left out: the cadence does not
    read it. *)
Definition logCheckDuration (name : string) (runCounter : Z) : M unit :=
  if bool_decide (runCounter < 5) then
    emit (EvLog (FinishedCheck name runCounter))
  else if bool_decide (runCounter = 5) then
    emit (EvLog (FinishedCheckFirst5 name runCounter))
  else if bool_decide (Z.rem runCounter 20 = 0) then
    emit (EvLog (FinishCheck name runCounter))
  else skip.

Definition nextGroupID : M Z :=
  update (fun l => set_groupID (int32 (groupID l + 1)) l);;
  get groupID.

(** ** From messages to queued results *)

Definition getContainerCount (mb : MessageBody) : Z :=
  match mb with
  | CollectorProc cs => Z.of_nat (length cs)
  | CollectorRealTime cs => Z.of_nat (length cs)
  | CollectorContainer cs => Z.of_nat (length cs)
  | CollectorContainerRealTime cs => Z.of_nat (length cs)
  | CollectorConnections _ => 0
  | _ => 0
  end.

Definition is_manifest (mb : MessageBody) : bool :=
  match mb with CollectorManifest _ => true | _ => false end.

Definition process_agent : string := "process-agent".

Definition extraHeaders (conf : AgentConfig) (start : Z) (name : string)
    (m : MessageBody) : Header :=
  let h := header_Set TimestampHeader (pretty start) [] in
  let h := header_Set HostHeader (HostName conf) h in
  let h := header_Set ProcessVersionHeader AgentVersionNumber h in
  let h := header_Set ContainerCountHeader (pretty (getContainerCount m)) h in
  let h := header_Set ContentTypeHeader ProtobufContentType h in
  let h :=
    if OrchestrationCollectionEnabled conf then
      let h := match GetClusterID with
               | Ok cid => if decide (cid <> String.EmptyString)
                           then header_Set ClusterIDHeader cid h else h
               | Failed _ => h
               end in
      let h := header_Set EVPOriginHeader process_agent h in
      let h := header_Set EVPOriginVersionHeader AgentVersion h in
      if is_manifest m
      then header_Set ContentEncodingHeader ZSTDContentEncoding h else h
    else h in
  if decide (name = ProcessEvents_Name) then
    let h := header_Set EVPOriginHeader process_agent h in
    header_Set EVPOriginVersionHeader AgentVersion h
  else h.

(** The loop of [messagesToResults]: the payloads and their size so far. *)
Fixpoint encode_loop (start : Z) (name : string) (messages : list MessageBody)
    (payloads : list checkPayload) (size : Z) : M (list checkPayload * Z) :=
  match messages with
  | [] => mret (payloads, size)
  | m :: rest =>
      match EncodePayload m with
      | Failed _ =>
          emit (EvLog UnableToEncode);;
          encode_loop start name rest payloads size
      | Ok b =>
          conf ← get cfg;
          let p := {| body := b; headers := extraHeaders conf start name m |} in
          encode_loop start name rest (payloads ++ [p])
                      (int64 (size + Z.of_nat (length b)))
      end
  end.

Definition messagesToResults (start : Z) (name : string)
    (messages : list MessageBody) (results : Queue) : M unit :=
  if bool_decide (length messages = 0%nat) then skip
  else
    '(payloads, size) ← encode_loop start name messages [] 0;
    let result := {| name := name; payloads := payloads;
                     sizeInBytes := int64 size |} in
    emit (EvAdd results result);;
    emit (EvProcContainerCount messages).

Definition handlePodChecks (start : Z) (name : string)
    (messages : list MessageBody) (results : Queue) : M unit :=
  let half := (length messages / 2)%nat in
  messagesToResults start name (take half messages) results;;
  conf ← get cfg;
  if IsManifestCollectionEnabled conf
  then messagesToResults start name (drop half messages) results
  else skip.

(** ** Running a check *)

(** [start] is what [time.Now()] answers on entry. *)
Definition runCheck (c : Check) (results : Queue) (start : Z) : M unit :=
  runCounter ← nextRunCounter (Name c);
  emit (EvLastCollectTime start);;
  gid ← nextGroupID;
  emit (EvRun (Name c) gid);;
  match Run c gid with
  | Failed err => emit (EvLog (UnableToRunCheck (Name c) err))
  | Ok messages =>
      (if ShouldSaveLastRun c
       then emit (EvStoreCheckOutput (Name c) (Some messages))
       else emit (EvStoreCheckOutput (Name c) None));;
      (if decide (Name c = PodCheckName)
       then handlePodChecks start (Name c) messages results
       else messagesToResults start (Name c) messages results);;
      if negb (RealTime c) then logCheckDuration (Name c) runCounter
      else skip
  end.

Definition runCheckWithRealTime (c : CheckWithRealTime)
    (results rtResults : Queue) (options : RunOptions) (start : Z) : M unit :=
  emit (EvLastCollectTime start);;
  g ← get groupID;
  emit (EvRun (Name c) g);;
  let '(drawn, out) := RunWithOptions c g options in
  for_range (replicate drawn tt) (fun _ => nextGroupID ;; skip);;
  match out with
  | Failed err => emit (EvLog (UnableToRunCheck (Name c) err))
  | Ok run =>
      messagesToResults start (Name c) (Standard run) results;;
      (if RunStandard options then
         runCounter ← nextRunCounter (Name c);
         emit (EvStoreCheckOutput (Name c) (Some (Standard run)));;
         logCheckDuration (Name c) runCounter
       else skip);;
      messagesToResults start (RealTimeName c) (RealTime_ run) rtResults;;
      if RunRealTime options
      then emit (EvStoreCheckOutput (RealTimeName c) (Some (RealTime_ run)))
      else skip
  end.

(** ** The scheduler of a basic check *)

(** What the [select] of the loop can receive: a tick of the ticker (with the
    time read when the run starts), an interval from [l.rtIntervalCh], a value
    from [exit], or the closing of [exit]. *)
Inductive RunnerEvent :=
  | Tick (now : Z)
  | RtInterval (d : Duration)
  | ExitValue
  | ExitClosed.

(** One turn of the [for { select { ... } }] loop; the ticker is known by its
    period, [None] is the [return].  [time.NewTicker] panics on a period that
    is not positive: what is stated below about the period of a ticker
    assumes positive ones. *)
Definition runner_step (c : Check) (results : Queue) (ticker : Duration)
    (ev : RunnerEvent) : M (option Duration) :=
  match ev with
  | Tick now =>
      run ← get runRealTime;
      enabled ← get realTimeEnabled;
      let realTimeEnabled := run && enabled in
      (if negb (RealTime c) || realTimeEnabled
       then runCheck c results now else skip);;
      mret (Some ticker)
  | RtInterval d =>
      mret (Some (if RealTime c then d else ticker))
  | ExitValue => mret (Some ticker)
  | ExitClosed => mret None
  end.

Fixpoint runner_loop (c : Check) (results : Queue) (ticker : Duration)
    (evs : list RunnerEvent) : M (option Duration) :=
  match evs with
  | [] => mret (Some ticker)
  | ev :: evs' =>
      next ← runner_step c results ticker ev;
      match next with
      | Some ticker' => runner_loop c results ticker' evs'
      | None => mret None
      end
  end.

(** The function [basicRunner] returns, run on the events its loop receives:
    [Some] period of the ticker while the loop is still selecting, [None] once
    it has returned. *)
Definition basicRunner (c : Check) (results : Queue) (start : Z)
    (evs : list RunnerEvent) : M (option Duration) :=
  (if negb (RealTime c) then runCheck c results start else skip);;
  conf ← get cfg;
  runner_loop c results (CheckInterval conf (Name c)) evs.

Definition resultsQueueForCheck (name : string) : Queue :=
  if decide (name = Pod_Name) then podResults
  else if decide (name = Process_RealTimeName \/ name = RTContainer_Name)
  then rtProcessResults
  else if decide (name = Connections_Name) then connectionsResults
  else if decide (name = ProcessEvents_Name) then eventResults
  else processResults.

(** ** The dispatcher *)

Fixpoint drop_loop (ds : list string) (check : string) : bool :=
  match ds with
  | [] => false
  | d :: ds' => if decide (d = check) then true else drop_loop ds' check
  end.

Definition shouldDropPayload (check : string) : M bool :=
  ds ← get dropCheckPayloads;
  mret (drop_loop ds check).

Definition ignoreResponseBody (checkName : string) : bool :=
  bool_decide (checkName = Pod_Name \/ checkName = ProcessEvents_Name).

Fixpoint readResponseStatuses (checkName : string) (responses : list Response)
    (statuses : list CollectorStatus) : M (list CollectorStatus) :=
  match responses with
  | [] => mret statuses
  | response :: rest =>
      match Err response with
      | Some e =>
          emit (EvLog (ErrorFrom checkName (Domain response) e));;
          readResponseStatuses checkName rest statuses
      | None =>
          if bool_decide (StatusCode response >= 300) then
            emit (EvLog (InvalidResponse checkName (Domain response)
                           (StatusCode response)));;
            readResponseStatuses checkName rest statuses
          else if ignoreResponseBody checkName then
            readResponseStatuses checkName rest statuses
          else
            match DecodeMessage (Body response) with
            | Failed _ =>
                emit (EvLog (CouldNotDecode checkName));;
                readResponseStatuses checkName rest statuses
            | Ok (ResCollector msg status) =>
                if bool_decide (0 < String.length msg)%nat then
                  emit (EvLog (ErrorInResponse checkName (Domain response) msg));;
                  readResponseStatuses checkName rest statuses
                else
                  readResponseStatuses checkName rest (statuses ++ [status])
            | Ok (OtherType t) =>
                emit (EvLog (UnexpectedResponseType checkName
                               (Domain response) t));;
                readResponseStatuses checkName rest statuses
            end
      end
  end.

(** The [switch result.name] of [consumePayloads]: the sink the payload goes
    to and the value [updateRTStatus] has after the switch; [None] is the
    [default] case. *)
Definition route (name : string) (payload : checkPayload)
    (updateRTStatus_ : bool) : option (Sink * bool) :=
  if decide (name = Process_Name) then
    Some (SubmitProcessChecks, updateRTStatus_)
  else if decide (name = Process_RealTimeName) then
    Some (SubmitRTProcessChecks, updateRTStatus_)
  else if decide (name = Container_Name) then
    Some (SubmitContainerChecks, updateRTStatus_)
  else if decide (name = RTContainer_Name) then
    Some (SubmitRTContainerChecks, updateRTStatus_)
  else if decide (name = Connections_Name) then
    Some (SubmitConnectionChecks, updateRTStatus_)
  else if decide (name = Pod_Name) then
    if decide (header_Get ContentEncodingHeader (headers payload)
               = ZSTDContentEncoding)
    then Some (SubmitOrchestratorManifests, false)
    else Some (SubmitOrchestratorChecks K8sPod, false)
  else if decide (name = ProcessDiscovery_Name) then
    Some (SubmitProcessDiscoveryChecks, false)
  else if decide (name = ProcessEvents_Name) then
    Some (SubmitProcessEventChecks, false)
  else None.

Section Dispatcher.
Context {F : Type} `{!Forwarder F}.

(** The body of [for _, payload := range result.payloads]. *)
Definition consumePayload (result : checkResult) (payload : checkPayload)
    (fwd : F) : M F :=
  updateRTStatus_ ← get runRealTime;
  dropped ← shouldDropPayload (name result);
  if dropped : bool then mret fwd
  else
    match route (name result) payload updateRTStatus_ with
    | None =>
        emit (EvLog (UnableToSubmit
                       ("unsupported payload type: " +:+ name result)));;
        mret fwd
    | Some (sink, updateRTStatus_) =>
        emit (EvSubmit sink payload);;
        let '(fwd', out) := Submit fwd sink payload in
        match out with
        | Failed err => emit (EvLog (UnableToSubmit err));; mret fwd'
        | Ok responses =>
            statuses ← readResponseStatuses (name result) responses [];
            (if bool_decide (0 < length statuses)%nat then
               if updateRTStatus_ then updateRTStatus statuses else skip
             else skip);;
            mret fwd'
        end
    end.

Fixpoint consumeResult (result : checkResult) (ps : list checkPayload)
    (fwd : F) : M F :=
  match ps with
  | [] => mret fwd
  | payload :: ps' =>
      fwd' ← consumePayload result payload fwd;
      consumeResult result ps' fwd'
  end.

(** [consumePayloads] on the items [results.Poll()] hands out before the
    queue is stopped. *)
Fixpoint consumePayloads (items : list checkResult) (fwd : F) : M F :=
  match items with
  | [] => mret fwd
  | result :: items' =>
      fwd' ← consumeResult result (payloads result) fwd;
      consumePayloads items' fwd'
  end.

End Dispatcher.

(** ** Construction *)

(** [NewCollectorWithChecks]; [seed] is what [rand.Int31()] answers and
    [drop] the configured [process_config.drop_check_payloads]. *)
Definition NewCollectorWithChecks (conf : AgentConfig) (checks : list Check)
    (runRealTime : bool) (seed : Z) (drop : list string) : Collector :=
  {| realTimeEnabled := false;
     groupID := seed;
     cfg := conf;
     runCounters := ∅;
     enabledChecks := checks;
     realTimeInterval := 2 * Second;
     runRealTime := runRealTime;
     dropCheckPayloads := drop |}.

End Collector.

(** ** Receiving from the shared channel

    Every scheduler loop receives from the one unbuffered channel
    [l.rtIntervalCh], so each send of the controller completes with exactly
    one loop: the one the runtime pairs it with among those selecting.
    [receivers] names, for each send in order, the loop that takes it; the
    answer is what each loop has received, oldest first. *)
Fixpoint deliver (sends : list Duration) (receivers : list nat)
    (inbox : list (list RunnerEvent)) : option (list (list RunnerEvent)) :=
  match sends, receivers with
  | [], [] => Some inbox
  | d :: sends', i :: receivers' =>
      match inbox !! i with
      | Some got =>
          deliver sends' receivers' (<[i := got ++ [RtInterval d]]> inbox)
      | None => None
      end
  | _, _ => None
  end.

(** ** Reading traces *)

Definition sends_of (t : list Event) : list Duration :=
  omap (fun e => match e with EvSend d => Some d | _ => None end) t.

Definition adds_of (t : list Event) : list (Queue * checkResult) :=
  omap (fun e => match e with EvAdd q r => Some (q, r) | _ => None end) t.

Definition stores_of (t : list Event)
    : list (string * option (list MessageBody)) :=
  omap (fun e => match e with
                 | EvStoreCheckOutput n out => Some (n, out)
                 | _ => None
                 end) t.

Definition runs_of (t : list Event) : list (string * Z) :=
  omap (fun e => match e with EvRun n g => Some (n, g) | _ => None end) t.

Definition submits_of (t : list Event) : list (Sink * checkPayload) :=
  omap (fun e => match e with EvSubmit s p => Some (s, p) | _ => None end) t.

(** The run counters of the check-duration lines of a trace. *)
Definition duration_logs (t : list Event) : list Z :=
  omap (fun e => match e with
                 | EvLog (FinishedCheck _ n) => Some n
                 | EvLog (FinishedCheckFirst5 _ n) => Some n
                 | EvLog (FinishCheck _ n) => Some n
                 | _ => None
                 end) t.

Definition is_log (e : Event) : bool :=
  match e with EvLog _ => true | _ => false end.

Definition is_tick (ev : RunnerEvent) : bool :=
  match ev with Tick _ => true | _ => false end.

(** ** Quantities the statements below speak of *)

(** What the loop of [updateRTStatus] has computed at its end. *)
Definition scan (statuses : list CollectorStatus) : rtScan :=
  foldl rtScan_step rtScan_init statuses.

(** The largest requested interval of a batch [s :: rest], as a duration. *)
Definition batch_max (s : CollectorStatus) (rest : list CollectorStatus)
    : Duration :=
  foldl Z.max (seconds (Interval s)) ((fun s => seconds (Interval s)) <$> rest).

(** The interval stored for a computed maximum that differs from the stored
    one. *)
Definition new_interval (m : Duration) : Duration :=
  if bool_decide (m <= 0) then 2 * Second else m.

(** The value [nextRunCounter] returns for a name. *)
Definition next_counter (counters : gmap string Z) (name : string) : Z :=
  match counters !! name with
  | Some rc => int32 (rc + 1)
  | None => 1
  end.

(** The struct after [k] calls of [nextGroupID]. *)
Definition drawn_ids (k : nat) (l : Collector) : Collector :=
  Nat.iter k (fun l => set_groupID (int32 (groupID l + 1)) l) l.

(** [n] calls of [runCheck] in a row, the [i]-th at time [start i]. *)
Fixpoint run_times `{Env} (n : nat) (c : Check) (results : Queue)
    (start : nat -> Z) : M unit :=
  match n with
  | O => skip
  | S n' => run_times n' c results start;; runCheck c results (start n')
  end.


(** The trace of [logCheckDuration]. *)
Definition duration_line (name : string) (runCounter : Z) : list Event :=
  if bool_decide (runCounter < 5) then [EvLog (FinishedCheck name runCounter)]
  else if bool_decide (runCounter = 5)
  then [EvLog (FinishedCheckFirst5 name runCounter)]
  else if bool_decide (Z.rem runCounter 20 = 0)
  then [EvLog (FinishCheck name runCounter)]
  else [].

Section Queued.
Context `{Env}.

(** The payloads [messagesToResults] builds: one per message that encodes. *)
Definition encoded (conf : AgentConfig) (start : Z) (name : string)
    (messages : list MessageBody) : list checkPayload :=
  omap (fun m => match EncodePayload m with
                 | Ok b => Some {| body := b;
                                   headers := extraHeaders conf start name m |}
                 | Failed _ => None
                 end) messages.

Definition payload_bytes (size : Z) (ps : list checkPayload) : Z :=
  foldl (fun size p => int64 (size + Z.of_nat (length (body p)))) size ps.

(** What [messagesToResults] adds to the queue [q]: nothing for no messages,
    else one result. *)
Definition queued (conf : AgentConfig) (start : Z) (name : string)
    (messages : list MessageBody) (q : Queue) : list (Queue * checkResult) :=
  match messages with
  | [] => []
  | _ :: _ =>
      let ps := encoded conf start name messages in
      [(q, {| name := name; payloads := ps;
              sizeInBytes := int64 (payload_bytes 0 ps) |})]
  end.

(** The lines [messagesToResults] logs: one per message that does not
    encode. *)
Definition encode_log (messages : list MessageBody) : list Event :=
  omap (fun m => match EncodePayload m with
                 | Ok _ => None
                 | Failed _ => Some (EvLog UnableToEncode)
                 end) messages.

(** The trace of [messagesToResults]. *)
Definition queue_trace (conf : AgentConfig) (start : Z) (name : string)
    (messages : list MessageBody) (q : Queue) : list Event :=
  match messages with
  | [] => []
  | _ :: _ =>
      encode_log messages
      ++ ((fun '(q, r) => EvAdd q r) <$> queued conf start name messages q)
      ++ [EvProcContainerCount messages]
  end.

(** The trace of the part of [runCheck] that queues the messages of a run. *)
Definition results_trace (conf : AgentConfig) (start : Z) (name : string)
    (messages : list MessageBody) (q : Queue) : list Event :=
  if decide (name = PodCheckName) then
    let half := (length messages / 2)%nat in
    queue_trace conf start name (take half messages) q
    ++ (if IsManifestCollectionEnabled conf
        then queue_trace conf start name (drop half messages) q else [])
  else queue_trace conf start name messages q.

(** The struct as [runCheck] leaves it. *)
Definition after_run (c : Check) (l : Collector) : Collector :=
  set_groupID (int32 (groupID l + 1))
    (set_runCounters
       (<[Name c := next_counter (runCounters l) (Name c)]> (runCounters l)) l).

(** The trace of [runCheck]. *)
Definition run_trace (c : Check) (q : Queue) (start : Z) (l : Collector)
    : list Event :=
  let g := int32 (groupID l + 1) in
  [EvLastCollectTime start; EvRun (Name c) g]
  ++ match Run c g with
     | Failed err => [EvLog (UnableToRunCheck (Name c) err)]
     | Ok ms =>
         [EvStoreCheckOutput (Name c)
            (if ShouldSaveLastRun c then Some ms else None)]
         ++ results_trace (cfg l) start (Name c) ms q
         ++ (if RealTime c then []
             else duration_line (Name c)
                    (next_counter (runCounters l) (Name c)))
     end.

End Queued.

(** ** A concrete agent, for evaluating the definitions *)

Module Sample.

Definition env : Env := {|
  Process_Name := "process";
  Process_RealTimeName := "rtprocess";
  Container_Name := "container";
  RTContainer_Name := "rtcontainer";
  Connections_Name := "connections";
  Pod_Name := "pod";
  ProcessDiscovery_Name := "process_discovery";
  ProcessEvents_Name := "process_events";
  PodCheckName := "pod";
  ProtobufContentType := "application/x-protobuf";
  ZSTDContentEncoding := "zstd";
  AgentVersionNumber := "7.40.0";
  AgentVersion := "7.40.0";
  K8sPod := 0;
  GetClusterID := Failed "no cluster";
  EncodePayload := fun m =>
    match m with
    | OtherMessage _ => Failed "unknown message"
    | _ => Ok [Byte.x01; Byte.x02]
    end;
  DecodeMessage := fun b =>
    match b with
    | [] => Failed "empty body"
    | Byte.x00 :: _ =>
        Ok (ResCollector String.EmptyString
              {| ActiveClients := 3; Interval := 10 |})
    | _ =>
        Ok (ResCollector String.EmptyString
              {| ActiveClients := 0; Interval := 5 |})
    end
|}.

Definition conf (manifests : bool) : AgentConfig := {|
  HostName := "host-1";
  OrchestrationCollectionEnabled := manifests;
  IsManifestCollectionEnabled := manifests;
  CheckInterval := fun n =>
    if decide (n = "rtcontainer") then 2 * Second else 10 * Second
|}.

(** A check that succeeds with the messages [ms] on every run. *)
Definition check (n : string) (rt : bool) (ms : list MessageBody) : Check := {|
  Name := n; RealTime := rt; ShouldSaveLastRun := true;
  Run := fun _ => Ok ms
|}.

(** A check that fails on every run. *)
Definition failing (n : string) (rt : bool) : Check := {|
  Name := n; RealTime := rt; ShouldSaveLastRun := true;
  Run := fun _ => Failed "boom"
|}.

Definition procs : list MessageBody :=
  [CollectorProc ["c1"]; CollectorProc []].

Definition process_check : CheckWithRealTime := {|
  asCheck := check "process" false procs;
  RealTimeName := "rtprocess";
  RunWithOptions := fun _ opts =>
    (1%nat, Ok {| Standard := if RunStandard opts then procs else [];
                  RealTime_ := if RunRealTime opts
                               then [CollectorRealTime ["c1"]] else [] |})
|}.

Definition container_check : Check :=
  check "container" false [CollectorContainer ["c1"]].
Definition rtcontainer_check : Check :=
  check "rtcontainer" true [CollectorContainerRealTime ["c1"]].

Definition collector (checks : list Check) (drop : list string) : Collector :=
  NewCollectorWithChecks (conf false) checks true 41 drop.

(** A forwarder without state that answers every submission with the same two
    domains. *)
Definition two_domains : Forwarder unit := fun _ _ _ =>
  (tt, Ok [ {| Domain := "a"; Body := [Byte.x00]; StatusCode := 200;
               Err := None |};
            {| Domain := "b"; Body := [Byte.x01]; StatusCode := 202;
               Err := None |} ]).

End Sample.

(** ** Further quantities of the controller *)

(** The line [updateRTStatus] logs when the flag changes. *)
Definition transition_line (cur : bool) (sc : rtScan) : list Event :=
  if cur && negb (shouldEnableRT sc) then [EvLog DisablingRealTime]
  else if negb cur && shouldEnableRT sc
  then [EvLog (EnablingRealTime (activeClients sc))]
  else [].


(** The largest [Interval] of a batch [s :: rest], in seconds. *)
Definition interval_max (s : CollectorStatus) (rest : list CollectorStatus)
    : Z :=
  foldl Z.max (Interval s) (Interval <$> rest).


(** The bytes of the bodies of a list of payloads. *)
Definition total_bytes (ps : list checkPayload) : Z :=
  foldr (fun p n => Z.of_nat (length (body p)) + n) 0 ps.

(** A response [readResponseStatuses] skips before looking at its body. *)
Definition failed_response (r : Response) : Prop :=
  is_Some (Err r) \/ StatusCode r >= 300.

(** The names whose submissions may reach [updateRTStatus]. *)
Definition rt_names `{Env} : list string :=
  [Process_Name; Process_RealTimeName; Container_Name; RTContainer_Name;
   Connections_Name].

Definition ticks (evs : list RunnerEvent) : nat :=
  length (filter (fun ev => is_tick ev) evs).

Definition is_closed (ev : RunnerEvent) : bool :=
  match ev with ExitClosed => true | _ => false end.

(** The last interval among the events, [d] without one. *)
Definition last_interval (d : Duration) (evs : list RunnerEvent) : Duration :=
  foldl (fun d ev => match ev with RtInterval d' => d' | _ => d end) d evs.

(** The events a loop handles: those up to the closing of [exit]. *)
Fixpoint before_close (evs : list RunnerEvent) : list RunnerEvent :=
  match evs with
  | [] => []
  | ExitClosed :: _ => []
  | ev :: evs' => ev :: before_close evs'
  end.

(** ** The limits of the queues

    The part of [NewCollectorWithChecks] that reads the limits of the five
    queues from the configuration; the three defaults are constants of
    [ddconfig]. *)
Record QueueSettings := {
  queue_size : Z;                 (* process_config.queue_size *)
  rt_queue_size : Z;              (* process_config.rt_queue_size *)
  process_queue_bytes : Z;        (* process_config.process_queue_bytes *)
  PodQueueBytes : Z;              (* cfg.Orchestrator.PodQueueBytes *)
  DefaultProcessQueueSize : Z;
  DefaultProcessRTQueueSize : Z;
  DefaultProcessQueueBytes : Z
}.

Definition or_default (configured default : Z) : Z :=
  if bool_decide (configured <= 0) then default else configured.

(** The arguments of [api.NewWeightedQueue] for each queue: the largest
    number of items and the largest weight. *)
Definition queueLimits (s : QueueSettings) (q : Queue) : Z * Z :=
  let queueSize := or_default (queue_size s) (DefaultProcessQueueSize s) in
  let rtQueueSize :=
    or_default (rt_queue_size s) (DefaultProcessRTQueueSize s) in
  let queueBytes :=
    or_default (process_queue_bytes s) (DefaultProcessQueueBytes s) in
  match q with
  | processResults => (queueSize, int64 queueBytes)
  | rtProcessResults => (rtQueueSize, int64 queueBytes)
  | connectionsResults => (queueSize, int64 queueBytes)
  | podResults => (queueSize, int64 (PodQueueBytes s))
  | eventResults => (queueSize, int64 queueBytes)
  end.

(** [forwarderRetryQueueMaxBytes] *)
Definition forwarderRetryQueueMaxBytes (s : QueueSettings) : Z :=
  or_default (process_queue_bytes s) (DefaultProcessQueueBytes s).


(** ** Runs that fail *)



(** The periods [time.NewTicker] accepts: it panics on any other. *)
Definition ticker_period (d : Duration) : Prop := 0 < d.

(** The intervals among the events are periods a ticker accepts. *)
Definition interval_periods (evs : list RunnerEvent) : Prop :=
  Forall (fun ev => match ev with
                    | RtInterval d => ticker_period d
                    | _ => True
                    end) evs.

(** * Reasoning about computations *)

Section Laws.
Context {A B : Type}.
Implicit Types (m : M A) (f : A -> M B) (l : Collector).

Lemma state_bind m f l :
  state_of ((m ≫= f) l) = state_of (f (value_of (m l)) (state_of (m l))).
Proof.
  unfold state_of, value_of, mbind, M_bind.
  destruct (m l) as [[a l1] t1]; cbn. by destruct (f a l1) as [[b l2] t2].
Qed.

Lemma value_bind m f l :
  value_of ((m ≫= f) l) = value_of (f (value_of (m l)) (state_of (m l))).
Proof.
  unfold state_of, value_of, mbind, M_bind.
  destruct (m l) as [[a l1] t1]; cbn. by destruct (f a l1) as [[b l2] t2].
Qed.

Lemma trace_bind m f l :
  trace_of ((m ≫= f) l)
  = trace_of (m l) ++ trace_of (f (value_of (m l)) (state_of (m l))).
Proof.
  unfold trace_of, state_of, value_of, mbind, M_bind.
  destruct (m l) as [[a l1] t1]; cbn. by destruct (f a l1) as [[b l2] t2].
Qed.

Lemma if_run (c : bool) (m1 m2 : M A) l :
  (if c then m1 else m2) l = if c then m1 l else m2 l.
Proof. by destruct c. Qed.

Lemma run_eta (r : A * Collector * list Event) :
  r = (value_of r, state_of r, trace_of r).
Proof. by destruct r as [[a l] t]. Qed.

End Laws.

Lemma state_get {A} (f : Collector -> A) l : state_of (get f l) = l.
Proof. done. Qed.
Lemma value_get {A} (f : Collector -> A) l : value_of (get f l) = f l.
Proof. done. Qed.
Lemma trace_get {A} (f : Collector -> A) l : trace_of (get f l) = [].
Proof. done. Qed.
Lemma state_update f l : state_of (update f l) = f l.
Proof. done. Qed.
Lemma trace_update f l : trace_of (update f l) = [].
Proof. done. Qed.
Lemma state_emit e l : state_of (emit e l) = l.
Proof. done. Qed.
Lemma trace_emit e l : trace_of (emit e l) = [e].
Proof. done. Qed.
Lemma state_ret {A} (a : A) l : state_of (mret (M:=M) a l) = l.
Proof. done. Qed.
Lemma value_ret {A} (a : A) l : value_of (mret (M:=M) a l) = a.
Proof. done. Qed.
Lemma trace_ret {A} (a : A) l : trace_of (mret (M:=M) a l) = [].
Proof. done. Qed.
Lemma state_skip l : state_of (skip l) = l.
Proof. done. Qed.
Lemma trace_skip l : trace_of (skip l) = [].
Proof. done. Qed.

Lemma value_emit e l : value_of (emit e l) = tt.
Proof. done. Qed.
Lemma value_update f l : value_of (update f l) = tt.
Proof. done. Qed.
Lemma value_skip l : value_of (skip l) = tt.
Proof. done. Qed.
Lemma state_mk {A} (a : A) l t : state_of (a, l, t) = l.
Proof. done. Qed.
Lemma value_mk {A} (a : A) l t : value_of (a, l, t) = a.
Proof. done. Qed.
Lemma trace_mk {A} (a : A) l t : trace_of (a, l, t) = t.
Proof. done. Qed.

Create Rewrite HintDb run.
#[local] Hint Rewrite @state_bind @value_bind @trace_bind @state_get
  @value_get @trace_get state_update trace_update state_emit trace_emit
  @state_ret @value_ret @trace_ret state_skip trace_skip @if_run
  value_emit value_update value_skip @state_mk @value_mk @trace_mk : run.

Ltac run := autorewrite with run.

Lemma sends_of_app t1 t2 : sends_of (t1 ++ t2) = sends_of t1 ++ sends_of t2.
Proof. apply omap_app. Qed.
Lemma adds_of_app t1 t2 : adds_of (t1 ++ t2) = adds_of t1 ++ adds_of t2.
Proof. apply omap_app. Qed.
Lemma stores_of_app t1 t2 : stores_of (t1 ++ t2) = stores_of t1 ++ stores_of t2.
Proof. apply omap_app. Qed.
Lemma runs_of_app t1 t2 : runs_of (t1 ++ t2) = runs_of t1 ++ runs_of t2.
Proof. apply omap_app. Qed.
Lemma submits_of_app t1 t2 :
  submits_of (t1 ++ t2) = submits_of t1 ++ submits_of t2.
Proof. apply omap_app. Qed.
Lemma duration_logs_app t1 t2 :
  duration_logs (t1 ++ t2) = duration_logs t1 ++ duration_logs t2.
Proof. apply omap_app. Qed.

Lemma sends_of_replicate n d : sends_of (replicate n (EvSend d)) = replicate n d.
Proof. induction n; cbn; [done|]. by f_equal. Qed.

(** * The real-time controller *)

Lemma int64_small x : - 2 ^ 63 <= x < 2 ^ 63 -> int64 x = x.
Proof.
  intros Hx. unfold int64, wrap_signed.
  rewrite Z.mod_small; lia.
Qed.

Lemma int32_small x : in_int32 x -> int32 x = x.
Proof.
  unfold in_int32. intros Hx. unfold int32, wrap_signed.
  rewrite Z.mod_small; lia.
Qed.

(** The conversion of an [int32] number of seconds does not overflow. *)
Lemma seconds_int32 n : in_int32 n -> seconds n = n * Second.
Proof.
  unfold in_int32, seconds, Second. intros Hn.
  rewrite (int64_small n) by lia. apply int64_small. lia.
Qed.

Lemma broadcast_state (checks : list Check) (l : Collector) :
  state_of (for_range checks
              (fun _ => d ← get realTimeInterval; emit (EvSend d)) l) = l.
Proof.
  revert l. induction checks as [|c checks IH]; intros l; [done|].
  cbn [for_range]. run. apply IH.
Qed.

Lemma broadcast_trace (checks : list Check) (l : Collector) :
  trace_of (for_range checks
              (fun _ => d ← get realTimeInterval; emit (EvSend d)) l)
  = replicate (length checks) (EvSend (realTimeInterval l)).
Proof.
  revert l. induction checks as [|c checks IH]; intros l; [done|].
  cbn [for_range length replicate]. run. by rewrite IH.
Qed.

(** The struct as [updateRTStatus] leaves it. *)
Lemma updateRTStatus_state (ss : list CollectorStatus) (l : Collector) :
  state_of (updateRTStatus ss l) =
    (if bool_decide (maxInterval (scan ss) <> realTimeInterval l)
     then set_realTimeInterval (new_interval (maxInterval (scan ss))) else id)
      (set_realTimeEnabled (shouldEnableRT (scan ss)) l).
Proof.
  unfold updateRTStatus. fold (scan ss). set (sc := scan ss).
  destruct l as [en g c rc chk iv rr dp]. run. cbn [realTimeEnabled].
  destruct en, (shouldEnableRT sc); cbn [andb negb]; run;
    cbn [realTimeInterval set_realTimeEnabled]; case_bool_decide; run;
    rewrite ?broadcast_state; unfold new_interval;
    cbn [realTimeInterval set_realTimeInterval set_realTimeEnabled];
    try done; case_bool_decide; run; done.
Qed.

(** What [updateRTStatus] sends on [l.rtIntervalCh]. *)
Lemma updateRTStatus_sends (ss : list CollectorStatus) (l : Collector) :
  sends_of (trace_of (updateRTStatus ss l)) =
    if bool_decide (maxInterval (scan ss) <> realTimeInterval l)
    then replicate (length (enabledChecks l))
                   (new_interval (maxInterval (scan ss)))
    else [].
Proof.
  unfold updateRTStatus. fold (scan ss). set (sc := scan ss).
  destruct l as [en g c rc chk iv rr dp]. run. cbn [realTimeEnabled].
  destruct en, (shouldEnableRT sc); cbn [andb negb]; run;
    cbn [realTimeInterval set_realTimeEnabled]; case_bool_decide; run;
    rewrite ?broadcast_trace, ?broadcast_state; unfold new_interval;
    cbn [realTimeInterval set_realTimeInterval set_realTimeEnabled
         enabledChecks];
    try done; case_bool_decide; run;
    cbn [realTimeInterval set_realTimeInterval set_realTimeEnabled
         enabledChecks];
    rewrite ?sends_of_app, ?sends_of_replicate; cbn; by rewrite ?app_nil_r.
Qed.

Lemma scan_shouldEnableRT_acc (ss : list CollectorStatus) (acc : rtScan) :
  shouldEnableRT (foldl rtScan_step acc ss) = true
  <-> shouldEnableRT acc = true \/ Exists (fun s => ActiveClients s > 0) ss.
Proof.
  revert acc. induction ss as [|s ss IH]; intros acc; cbn [foldl].
  - rewrite Exists_nil. tauto.
  - rewrite IH, Exists_cons. cbn [rtScan_step shouldEnableRT].
    rewrite orb_true_iff, bool_decide_eq_true. tauto.
Qed.

Lemma scan_shouldEnableRT (ss : list CollectorStatus) :
  shouldEnableRT (scan ss) = true <-> Exists (fun s => ActiveClients s > 0) ss.
Proof.
  unfold scan. rewrite scan_shouldEnableRT_acc. cbn. intuition discriminate.
Qed.

Lemma scan_maxInterval_acc (ss : list CollectorStatus) (acc : rtScan) :
  maxInterval (foldl rtScan_step acc ss)
  = foldl Z.max (maxInterval acc) ((fun s => seconds (Interval s)) <$> ss).
Proof.
  revert acc. induction ss as [|s ss IH]; intros acc; [done|].
  cbn [foldl fmap list_fmap]. rewrite IH. f_equal.
  cbn [rtScan_step maxInterval]. case_bool_decide; lia.
Qed.

Lemma foldl_max_le (ds : list Z) (a : Z) : a <= foldl Z.max a ds.
Proof.
  revert a. induction ds as [|d ds IH]; intros a; cbn [foldl]; [lia|].
  specialize (IH (Z.max a d)). lia.
Qed.

Lemma foldl_max_floor (ds : list Z) (a b : Z) :
  foldl Z.max (Z.max b a) ds = Z.max b (foldl Z.max a ds).
Proof.
  revert a. induction ds as [|d ds IH]; intros a; cbn [foldl]; [done|].
  rewrite <- IH. f_equal. lia.
Qed.

(** The loop starts from zero, so it computes the batch maximum floored at
    zero. *)
Lemma scan_maxInterval (s : CollectorStatus) (rest : list CollectorStatus) :
  maxInterval (scan (s :: rest)) = Z.max 0 (batch_max s rest).
Proof.
  unfold scan, batch_max. rewrite scan_maxInterval_acc.
  cbn [fmap list_fmap foldl]. by rewrite foldl_max_floor.
Qed.

Lemma scan_maxInterval_nonneg (ss : list CollectorStatus) :
  0 <= maxInterval (scan ss).
Proof.
  unfold scan. rewrite scan_maxInterval_acc. apply foldl_max_le.
Qed.

(** The stored interval is positive when the collector is built and stays so
    through every update. *)
Lemma NewCollectorWithChecks_interval conf checks rt seed drop :
  0 < realTimeInterval (NewCollectorWithChecks conf checks rt seed drop).
Proof. done. Qed.

Lemma updateRTStatus_interval_positive (ss : list CollectorStatus) l :
  0 < realTimeInterval l ->
  0 < realTimeInterval (state_of (updateRTStatus ss l)).
Proof.
  intros Hpos. rewrite updateRTStatus_state.
  pose proof (scan_maxInterval_nonneg ss).
  case_bool_decide; [|done]. cbn. unfold new_interval, Second.
  case_bool_decide; lia.
Qed.

(** C1, as amended.  After [updateRTStatus] on a batch, the real-time flag is
    true exactly when some record of the batch has [ActiveClients > 0], and
    false exactly when no record has, that is when every record has
    [ActiveClients <= 0] (the count is a signed integer). *)
Theorem updateRTStatus_enabled (l : Collector) (batch : list CollectorStatus) :
  let l' := state_of (updateRTStatus batch l) in
  (realTimeEnabled l' = true
     <-> Exists (fun s => ActiveClients s > 0) batch) /\
  (realTimeEnabled l' = false
     <-> Forall (fun s => ActiveClients s <= 0) batch).
Proof.
  intros l'.
  assert (Hen : realTimeEnabled l' = shouldEnableRT (scan batch)).
  { subst l'. rewrite updateRTStatus_state. by case_bool_decide. }
  rewrite Hen. split; [apply scan_shouldEnableRT|].
  rewrite <- not_true_iff_false, scan_shouldEnableRT, <- Forall_Exists_neg.
  apply Forall_iff. intros s. lia.
Qed.

(** C1, as stated, fails on a record with a negative client count: the flag is
    false although not every record has [ActiveClients = 0]. *)
Lemma updateRTStatus_enabled_negative_clients :
  let batch := [{| ActiveClients := -1; Interval := 0 |}] in
  let l := Sample.collector [Sample.container_check] [] in
  ~ (realTimeEnabled (state_of (updateRTStatus batch l)) = false
     <-> Forall (fun s => ActiveClients s = 0) batch).
Proof.
  intros batch l [Hfalse _].
  assert (Hall : Forall (fun s => ActiveClients s = 0) batch)
    by (apply Hfalse; reflexivity).
  apply Forall_cons in Hall as [Hzero _]. cbn in Hzero. discriminate.
Qed.

(** C2.  With a positive stored interval (as [NewCollectorWithChecks] sets it
    and every update keeps it), after [updateRTStatus] on a batch the stored
    interval is the maximum requested interval when that is positive and two
    seconds otherwise; it changes, and is broadcast, only if the maximum
    differs from the interval stored before. *)
Theorem updateRTStatus_interval (l : Collector) (s : CollectorStatus)
    (rest : list CollectorStatus) :
  0 < realTimeInterval l ->
  let m := batch_max s rest in
  let r := updateRTStatus (s :: rest) l in
  (0 < m -> realTimeInterval (state_of r) = m) /\
  (m <= 0 -> realTimeInterval (state_of r) = 2 * Second) /\
  (realTimeInterval (state_of r) <> realTimeInterval l ->
     m <> realTimeInterval l) /\
  (m = realTimeInterval l -> sends_of (trace_of r) = []).
Proof.
  intros Hpos m r. subst r.
  rewrite updateRTStatus_state, updateRTStatus_sends, scan_maxInterval.
  fold m. unfold new_interval.
  repeat split; intros Hm; repeat case_bool_decide; cbn in *;
    try done; try lia.
Qed.

Lemma updateRTStatus_interval_witness :
  let l := Sample.collector [Sample.container_check] [] in
  let s := {| ActiveClients := 0; Interval := 5 |} in
  let rest := [{| ActiveClients := 3; Interval := 10 |}] in
  0 < realTimeInterval l /\
  realTimeInterval (state_of (updateRTStatus (s :: rest) l)) = 10 * Second.
Proof.
  intros l s rest.
  assert (Hpos : 0 < realTimeInterval l) by reflexivity.
  split; [exact Hpos|].
  apply (updateRTStatus_interval l s rest Hpos). reflexivity.
Defined.

(** C3, on the code.  A collector with two schedulers, one of them for a
    real-time check, receives a status that asks for ten seconds.  The
    controller stores the ten seconds and sends them twice on the shared
    channel; in the delivery where the first loop takes both sends the second
    loop has received nothing when the controller returns, and its ticker
    keeps the period it had. *)
Theorem broadcast_misses_a_scheduler :
  let checks := [Sample.container_check; Sample.rtcontainer_check] in
  let l := Sample.collector checks [] in
  let r := updateRTStatus [{| ActiveClients := 1; Interval := 10 |}] l in
  realTimeInterval (state_of r) = 10 * Second /\
  sends_of (trace_of r) = [10 * Second; 10 * Second] /\
  deliver (sends_of (trace_of r)) [0%nat; 0%nat] [[]; []]
    = Some [[RtInterval (10 * Second); RtInterval (10 * Second)]; []] /\
  value_of (basicRunner (H:=Sample.env) Sample.rtcontainer_check
              rtProcessResults 0 [] (state_of r))
    = Some (2 * Second) /\
  value_of (basicRunner (H:=Sample.env) Sample.rtcontainer_check
              rtProcessResults 0 [RtInterval (10 * Second)] (state_of r))
    = Some (10 * Second).
Proof. repeat split. Qed.

(** * Running a check *)

Section Running.
Context `{Env}.

Lemma encode_loop_run start name ms ps size l :
  encode_loop start name ms ps size l
  = ((ps ++ encoded (cfg l) start name ms,
      payload_bytes size (encoded (cfg l) start name ms)), l, encode_log ms).
Proof.
  revert ps size. induction ms as [|m ms IH]; intros ps size.
  - cbn. by rewrite app_nil_r.
  - cbn [encode_loop encoded encode_log omap list_omap].
    destruct (EncodePayload m) as [b|e]; rewrite (run_eta (_ l)); run;
      rewrite IH; run; [|done].
    cbn. by rewrite <- app_assoc.
Qed.

Lemma messagesToResults_run start name ms q l :
  messagesToResults start name ms q l
  = (tt, l, queue_trace (cfg l) start name ms q).
Proof.
  unfold messagesToResults. destruct ms as [|m ms]; [done|].
  rewrite bool_decide_eq_false_2 by done.
  rewrite (run_eta (_ l)). run. rewrite encode_loop_run. by run.
Qed.

Lemma logCheckDuration_run name n l :
  logCheckDuration name n l = (tt, l, duration_line name n).
Proof.
  unfold logCheckDuration, duration_line. by repeat case_bool_decide.
Qed.

Lemma nextRunCounter_run name l :
  nextRunCounter name l
  = (next_counter (runCounters l) name,
     set_runCounters
       (<[name := next_counter (runCounters l) name]> (runCounters l)) l,
     []).
Proof. done. Qed.

Lemma nextGroupID_run l :
  nextGroupID l
  = (int32 (groupID l + 1), set_groupID (int32 (groupID l + 1)) l, []).
Proof. done. Qed.

Lemma handlePodChecks_run start name ms q l :
  handlePodChecks start name ms q l
  = (tt, l,
     queue_trace (cfg l) start name (take (length ms / 2)%nat ms) q
     ++ (if IsManifestCollectionEnabled (cfg l)
         then queue_trace (cfg l) start name (drop (length ms / 2)%nat ms) q
         else [])).
Proof.
  unfold handlePodChecks. rewrite (run_eta (_ l)). run.
  rewrite !messagesToResults_run. run.
  destruct (IsManifestCollectionEnabled (cfg l));
    rewrite ?messagesToResults_run; by run.
Qed.

Lemma runCheck_run c q start l :
  runCheck c q start l = (tt, after_run c l, run_trace c q start l).
Proof.
  unfold runCheck, run_trace, after_run. rewrite (run_eta (_ l)). run.
  rewrite !nextRunCounter_run. run. rewrite !nextGroupID_run. run.
  cbn [groupID set_runCounters].
  destruct (Run c _) as [ms|err]; [|by run].
  run. unfold results_trace.
  destruct (ShouldSaveLastRun c), (decide (Name c = PodCheckName)),
    (RealTime c); cbn [negb]; run;
    rewrite ?handlePodChecks_run, ?messagesToResults_run,
      ?logCheckDuration_run; run;
    cbn [cfg set_groupID set_runCounters];
    rewrite ?app_nil_r, <- ?app_assoc; done.
Qed.

(** What the observers see in the pieces of a trace. *)
Lemma encode_log_quiet ms :
  adds_of (encode_log ms) = [] /\ stores_of (encode_log ms) = [] /\
  runs_of (encode_log ms) = [] /\ sends_of (encode_log ms) = [] /\
  duration_logs (encode_log ms) = [] /\ submits_of (encode_log ms) = [].
Proof.
  induction ms as [|m ms IH]; [done|].
  cbn [encode_log omap list_omap]. by destruct (EncodePayload m).
Qed.

Lemma queue_trace_adds conf start name ms q :
  adds_of (queue_trace conf start name ms q) = queued conf start name ms q.
Proof.
  destruct ms as [|m ms]; [done|]. unfold queue_trace.
  rewrite !adds_of_app. by destruct (encode_log_quiet (m :: ms)) as (-> & _).
Qed.

Lemma queue_trace_quiet conf start name ms q :
  stores_of (queue_trace conf start name ms q) = [] /\
  runs_of (queue_trace conf start name ms q) = [] /\
  sends_of (queue_trace conf start name ms q) = [] /\
  duration_logs (queue_trace conf start name ms q) = [].
Proof.
  destruct ms as [|m ms]; [done|]. unfold queue_trace.
  rewrite !stores_of_app, !runs_of_app, !sends_of_app, !duration_logs_app.
  by destruct (encode_log_quiet (m :: ms)) as (_ & -> & -> & -> & -> & _).
Qed.

Lemma results_trace_quiet conf start name ms q :
  stores_of (results_trace conf start name ms q) = [] /\
  runs_of (results_trace conf start name ms q) = [] /\
  sends_of (results_trace conf start name ms q) = [] /\
  duration_logs (results_trace conf start name ms q) = [].
Proof.
  unfold results_trace.
  case_decide; [destruct (IsManifestCollectionEnabled conf)|];
    rewrite ?stores_of_app, ?runs_of_app, ?sends_of_app, ?duration_logs_app;
    repeat match goal with
           | |- context [queue_trace ?c ?s ?n ?m ?q] =>
               destruct (queue_trace_quiet c s n m q) as (-> & -> & -> & ->)
           end; done.
Qed.

Lemma duration_line_quiet name n :
  adds_of (duration_line name n) = [] /\ stores_of (duration_line name n) = []
  /\ runs_of (duration_line name n) = [] /\ sends_of (duration_line name n) = [].
Proof. unfold duration_line. by repeat case_bool_decide. Qed.

Lemma duration_line_logs name n :
  duration_logs (duration_line name n)
  = if bool_decide (n < 5) || bool_decide (n = 5)
       || bool_decide (Z.rem n 20 = 0)
    then [n] else [].
Proof. unfold duration_line. by repeat case_bool_decide. Qed.

End Running.

(** * The scheduler *)

Section Scheduler.
Context `{Env}.


Lemma run_trace_runs c q start l :
  runs_of (run_trace c q start l) = [(Name c, int32 (groupID l + 1))].
Proof.
  unfold run_trace. cbv zeta.
  destruct (Run c _) as [ms|err]; rewrite !runs_of_app; [|done].
  destruct (results_trace_quiet (cfg l) start (Name c) ms q) as (_ & -> & _).
  destruct (duration_line_quiet (Name c) (next_counter (runCounters l) (Name c)))
    as (_ & _ & Hline & _).
  destruct (RealTime c); [done|]. by rewrite Hline.
Qed.

Lemma runner_step_tick c q ticker now l :
  runner_step c q ticker (Tick now) l
  = if negb (RealTime c) || (runRealTime l && realTimeEnabled l)
    then (Some ticker, after_run c l, run_trace c q now l)
    else (Some ticker, l, []).
Proof.
  cbn [runner_step]. rewrite (run_eta (_ l)). run.
  destruct (negb (RealTime c) || _); rewrite ?runCheck_run; run;
    by rewrite ?app_nil_r.
Qed.

(** Between ticks the loop runs nothing and leaves the collector alone. *)
Lemma runner_loop_no_tick c q (evs : list RunnerEvent) ticker l :
  forallb (fun ev => negb (is_tick ev)) evs = true ->
  state_of (runner_loop c q ticker evs l) = l /\
  trace_of (runner_loop c q ticker evs l) = [].
Proof.
  revert ticker. induction evs as [|ev evs IH]; intros ticker Hno; [done|].
  cbn [forallb] in Hno. apply andb_true_iff in Hno as [Hev Hno].
  cbn [runner_loop]. run.
  destruct ev as [now|d| |]; [done|..]; cbn [runner_step]; run;
    try apply IH; done.
Qed.


(** C8.  Up to the first tick of its ticker, the loop of [basicRunner] has run
    a check that is not real-time exactly once, the priming run, and a
    real-time check not at all. *)
Theorem priming_run (c : Check) (results : Queue) (start : Z)
    (pre : list RunnerEvent) (l : Collector) :
  forallb (fun ev => negb (is_tick ev)) pre = true ->
  runs_of (trace_of (basicRunner c results start pre l))
  = if RealTime c then [] else [(Name c, int32 (groupID l + 1))].
Proof.
  intros Hpre. unfold basicRunner. run. rewrite runs_of_app, app_nil_l.
  match goal with
  | |- _ ++ runs_of (trace_of (runner_loop _ _ ?t _ ?l')) = _ =>
      destruct (runner_loop_no_tick c results pre t l' Hpre) as [_ ->]
  end.
  rewrite app_nil_r.
  destruct (RealTime c); cbn [negb]; rewrite ?runCheck_run; run; [done|].
  by rewrite run_trace_runs.
Qed.

End Scheduler.


Lemma priming_run_witness :
  let pre := [RtInterval (3 * Second); ExitValue] in
  let l := Sample.collector [Sample.container_check] [] in
  forallb (fun ev => negb (is_tick ev)) pre = true /\
  runs_of (trace_of (basicRunner (H:=Sample.env) Sample.container_check
                       processResults 0 pre l))
  = [("container", 42)].
Proof.
  intros pre l.
  assert (Hpre : forallb (fun ev => negb (is_tick ev)) pre = true)
    by reflexivity.
  split; [exact Hpre|].
  apply (priming_run (H:=Sample.env) Sample.container_check processResults 0
           pre l Hpre).
Defined.

(** * The cadence of the duration log *)

Section Cadence.
Context `{Env}.


(** C10.  A successful run of the pod check on the messages [ms] queues the
    first [length ms / 2] of them as one result; with manifest collection
    enabled it queues the remaining ones as a second result on the same queue,
    and without it nothing else. *)
Theorem pod_check_queues_halves (c : Check) (results : Queue) (start : Z)
    (l : Collector) (ms : list MessageBody) :
  Name c = PodCheckName ->
  Run c (int32 (groupID l + 1)) = Ok ms ->
  let half := (length ms / 2)%nat in
  adds_of (trace_of (runCheck c results start l))
  = queued (cfg l) start (Name c) (take half ms) results
    ++ (if IsManifestCollectionEnabled (cfg l)
        then queued (cfg l) start (Name c) (drop half ms) results
        else []).
Proof.
  intros Hpod Hrun half. rewrite runCheck_run. run.
  unfold run_trace. cbv zeta. rewrite Hrun. unfold results_trace.
  rewrite decide_True by done. fold half. rewrite !adds_of_app.
  rewrite queue_trace_adds.
  destruct (duration_line_quiet (Name c)
              (next_counter (runCounters l) (Name c))) as (Hline & _).
  destruct (IsManifestCollectionEnabled (cfg l)), (RealTime c);
    rewrite ?queue_trace_adds, ?Hline; cbn; by rewrite ?app_nil_r.
Qed.

(** Queueing does not read the drop list. *)
Lemma runCheck_ignores_drop_list c q start l d :
  trace_of (runCheck c q start (set_dropCheckPayloads d l))
  = trace_of (runCheck c q start l).
Proof. rewrite !runCheck_run. by run. Qed.

End Cadence.

Lemma pod_check_queues_halves_witness :
  let ms := [CollectorProc ["p1"]; CollectorProc ["p2"];
             CollectorManifest "m1"; CollectorManifest "m2"] in
  let c := Sample.check "pod" false ms in
  let l := NewCollectorWithChecks (Sample.conf true) [c] true 41 [] in
  (Name c = PodCheckName (Env:=Sample.env) /\
   Run c (int32 (groupID l + 1)) = Ok ms) /\
  (fun '(q, r) => (q, length (payloads r)))
    <$> adds_of (trace_of (runCheck (H:=Sample.env) c podResults 9 l))
  = [(podResults, 2%nat); (podResults, 2%nat)].
Proof.
  intros ms c l.
  assert (Hpod : Name c = PodCheckName (Env:=Sample.env)) by reflexivity.
  assert (Hrun : Run c (int32 (groupID l + 1)) = Ok ms) by reflexivity.
  split; [by split|].
  rewrite (pod_check_queues_halves (H:=Sample.env) c podResults 9 l ms
             Hpod Hrun).
  reflexivity.
Defined.

(** * The dual-mode run *)

Section DualMode.
Context `{Env}.

Lemma drawn_ids_frame k l :
  cfg (drawn_ids k l) = cfg l /\ runCounters (drawn_ids k l) = runCounters l.
Proof. induction k as [|k IH]; [done|]. cbn. done. Qed.

Lemma draw_ids_run k l :
  for_range (replicate k tt) (fun _ => nextGroupID ;; skip) l
  = (tt, drawn_ids k l, []).
Proof.
  revert l. induction k as [|k IH]; intros l; [done|].
  cbn [replicate for_range]. rewrite (run_eta (_ l)). run.
  rewrite !nextGroupID_run. run. rewrite IH. run.
  f_equal. unfold drawn_ids. by rewrite Nat.iter_succ_r.
Qed.

Lemma runCheckWithRealTime_run (c : CheckWithRealTime) q rtq options start l
    drawn run :
  RunWithOptions c (groupID l) options = (drawn, Ok run) ->
  let l1 := drawn_ids drawn l in
  runCheckWithRealTime c q rtq options start l
  = (tt,
     (if RunStandard options
      then set_runCounters
             (<[Name c := next_counter (runCounters l) (Name c)]>
                (runCounters l)) l1
      else l1),
     [EvLastCollectTime start; EvRun (Name c) (groupID l)]
     ++ queue_trace (cfg l) start (Name c) (Standard run) q
     ++ (if RunStandard options
         then EvStoreCheckOutput (Name c) (Some (Standard run))
              :: duration_line (Name c) (next_counter (runCounters l) (Name c))
         else [])
     ++ queue_trace (cfg l) start (RealTimeName c) (RealTime_ run) rtq
     ++ (if RunRealTime options
         then [EvStoreCheckOutput (RealTimeName c) (Some (RealTime_ run))]
         else [])).
Proof.
  intros Hrun l1. unfold runCheckWithRealTime.
  rewrite (run_eta (_ l)). run. rewrite Hrun. run.
  rewrite !draw_ids_run. run. fold l1.
  destruct (drawn_ids_frame drawn l) as [Hcfg Hrc]. fold l1 in Hcfg, Hrc.
  rewrite !messagesToResults_run. run.
  destruct (RunStandard options), (RunRealTime options); run;
    rewrite ?nextRunCounter_run; run; rewrite ?logCheckDuration_run; run;
    rewrite ?messagesToResults_run; run; cbn [cfg set_runCounters];
    rewrite ?Hcfg, ?Hrc, ?app_nil_r; done.
Qed.

(** C6, as amended.  A successful dual-mode run queues the standard half on
    its queue and the real-time half on the real-time queue; it advances the
    run counter only when the standard half was asked for, and only under the
    check's own name; it stores the standard output under the check's name
    when the standard half was asked for, and the real-time output under the
    real-time name when the real-time half was asked for. *)
Theorem runCheckWithRealTime_bookkeeping (c : CheckWithRealTime)
    (results rtResults : Queue) (options : RunOptions) (start : Z)
    (l : Collector) (drawn : nat) (run : RunResult) :
  RunWithOptions c (groupID l) options = (drawn, Ok run) ->
  let r := runCheckWithRealTime c results rtResults options start l in
  adds_of (trace_of r)
    = queued (cfg l) start (Name c) (Standard run) results
      ++ queued (cfg l) start (RealTimeName c) (RealTime_ run) rtResults /\
  runCounters (state_of r)
    = (if RunStandard options
       then <[Name c := next_counter (runCounters l) (Name c)]> (runCounters l)
       else runCounters l) /\
  stores_of (trace_of r)
    = (if RunStandard options then [(Name c, Some (Standard run))] else [])
      ++ (if RunRealTime options
          then [(RealTimeName c, Some (RealTime_ run))] else []).
Proof.
  intros Hrun r. subst r.
  rewrite (runCheckWithRealTime_run c results rtResults options start l
             drawn run Hrun). run.
  destruct (drawn_ids_frame drawn l) as [_ Hrc].
  destruct (duration_line_quiet (Name c)
              (next_counter (runCounters l) (Name c))) as (Hadd & Hstore & _).
  destruct (queue_trace_quiet (cfg l) start (Name c) (Standard run) results)
    as (Hq & _).
  destruct (queue_trace_quiet (cfg l) start (RealTimeName c) (RealTime_ run)
              rtResults) as (Hrq & _).
  rewrite !adds_of_app, !stores_of_app, !queue_trace_adds, Hq, Hrq.
  destruct (RunStandard options), (RunRealTime options);
    cbn [adds_of stores_of omap list_omap app runCounters set_runCounters];
    fold (adds_of (duration_line (Name c)
                     (next_counter (runCounters l) (Name c))));
    fold (stores_of (duration_line (Name c)
                       (next_counter (runCounters l) (Name c))));
    by rewrite ?Hadd, ?Hstore, ?Hrc, ?app_nil_r.
Qed.

End DualMode.

Lemma runCheckWithRealTime_bookkeeping_witness :
  let c := Sample.process_check in
  let l := Sample.collector [asCheck c] [] in
  let options := {| RunStandard := false; RunRealTime := true |} in
  let run := {| Standard := []; RealTime_ := [CollectorRealTime ["c1"]] |} in
  RunWithOptions c (groupID l) options = (1%nat, Ok run) /\
  runCounters (state_of (runCheckWithRealTime (H:=Sample.env) c processResults
                           rtProcessResults options 9 l)) = runCounters l.
Proof.
  intros c l options run.
  assert (Hrun : RunWithOptions c (groupID l) options = (1%nat, Ok run))
    by reflexivity.
  split; [exact Hrun|].
  apply (runCheckWithRealTime_bookkeeping (H:=Sample.env) c processResults
           rtProcessResults options 9 l 1 run Hrun).
Defined.

(** C6, as stated, fails on the last-output store: a run asked for both halves
    stores the real-time output too, under the real-time name. *)
Lemma runCheckWithRealTime_stores_real_time_output :
  let c := Sample.process_check in
  let l := Sample.collector [asCheck c] [] in
  let options := {| RunStandard := true; RunRealTime := true |} in
  let r := runCheckWithRealTime (H:=Sample.env) c processResults
             rtProcessResults options 9 l in
  stores_of (trace_of r)
    = [("process", Some Sample.procs);
       ("rtprocess", Some [CollectorRealTime ["c1"]])] /\
  ~ Forall (fun s => s.1 = Name c) (stores_of (trace_of r)).
Proof.
  intros c l options r. split; [reflexivity|].
  intros Hall. apply Forall_cons in Hall as [_ Hall].
  apply Forall_cons in Hall as [Hname _]. discriminate Hname.
Qed.

(** * The dispatcher *)

Lemma logs_quiet (t : list Event) :
  Forall (fun e => is_log e = true) t ->
  sends_of t = [] /\ submits_of t = [] /\ adds_of t = [].
Proof.
  induction 1 as [|e t He _ IH]; [done|]. by destruct e.
Qed.

Section Dispatch.
Context `{Env} {F : Type} `{!Forwarder F}.

Lemma drop_loop_elem (ds : list string) (check : string) :
  drop_loop ds check = true <-> check ∈ ds.
Proof.
  induction ds as [|d ds IH]; cbn [drop_loop].
  - rewrite elem_of_nil. split; [done|tauto].
  - rewrite elem_of_cons, <- IH. case_decide; subst; [tauto|].
    split; [tauto|]. intros [->|Hin]; done.
Qed.

Lemma readResponseStatuses_run checkName responses statuses l :
  state_of (readResponseStatuses checkName responses statuses l) = l /\
  Forall (fun e => is_log e = true)
    (trace_of (readResponseStatuses checkName responses statuses l)).
Proof.
  revert statuses. induction responses as [|r rs IH]; intros statuses; [done|].
  cbn [readResponseStatuses].
  repeat (case_match || case_bool_decide); run;
    repeat match goal with
    | |- context [readResponseStatuses _ _ ?s _] =>
        destruct (IH s) as [-> ?]; clear IH
    end; split; try done; by constructor.
Qed.

Lemma route_not_real_time_influencing name payload update :
  NoDup dispatch_names ->
  name ∈ [Pod_Name; ProcessDiscovery_Name; ProcessEvents_Name] ->
  exists sink, route name payload update = Some (sink, false).
Proof.
  intros Hnd Hname.
  assert (Hne : name ∉ [Process_Name; Process_RealTimeName; Container_Name;
                        RTContainer_Name; Connections_Name]).
  { intros Hin. revert Hnd.
    change dispatch_names
      with ([Process_Name; Process_RealTimeName; Container_Name;
             RTContainer_Name; Connections_Name]
            ++ [Pod_Name; ProcessDiscovery_Name; ProcessEvents_Name]).
    rewrite NoDup_app. intros (_ & Hdisj & _). exact (Hdisj name Hin Hname). }
  rewrite !not_elem_of_cons in Hne.
  destruct Hne as (? & ? & ? & ? & ? & _).
  unfold route. rewrite !decide_False by done.
  rewrite !elem_of_cons, elem_of_nil in Hname.
  repeat case_decide; try (by eexists). tauto.
Qed.


(** A payload of the orchestrator, discovery or events pipeline leaves the
    collector as it was. *)
Lemma consumePayload_frame result payload (fwd : F) l :
  NoDup dispatch_names ->
  name result ∈ [Pod_Name; ProcessDiscovery_Name; ProcessEvents_Name] ->
  state_of (consumePayload result payload fwd l) = l /\
  sends_of (trace_of (consumePayload result payload fwd l)) = [].
Proof.
  intros Hnd Hname. unfold consumePayload. run.
  unfold shouldDropPayload. run.
  destruct (drop_loop _ _); run; [done|].
  destruct (route_not_real_time_influencing (name result) payload
              (runRealTime l) Hnd Hname) as [sink ->].
  run. destruct (Submit fwd sink payload) as [fwd' [responses|err]]; run;
    [|done].
  destruct (readResponseStatuses_run (name result) responses [] l)
    as [Hst Hlog]. rewrite !Hst.
  apply logs_quiet in Hlog as (Hs & _). rewrite !sends_of_app, Hs.
  by case_bool_decide; run.
Qed.

(** C4.  Submitting a payload of the pod check, the process-discovery check
    or the process-events check leaves the real-time flag and the real-time
    interval as they were and sends nothing to the schedulers, whatever the
    forwarder answers. *)
Theorem not_real_time_influencing (result : checkResult)
    (payload : checkPayload) (fwd : F) (l : Collector) :
  NoDup dispatch_names ->
  name result ∈ [Pod_Name; ProcessDiscovery_Name; ProcessEvents_Name] ->
  let r := consumePayload result payload fwd l in
  realTimeEnabled (state_of r) = realTimeEnabled l /\
  realTimeInterval (state_of r) = realTimeInterval l /\
  sends_of (trace_of r) = [].
Proof.
  intros Hnd Hname r.
  destruct (consumePayload_frame result payload fwd l Hnd Hname) as [Hst Hs].
  subst r. by rewrite Hst.
Qed.

Lemma consumeResult_dropped result ps (fwd : F) l :
  name result ∈ dropCheckPayloads l ->
  consumeResult result ps fwd l = (fwd, l, []).
Proof.
  intros Hdrop. apply drop_loop_elem in Hdrop.
  induction ps as [|p ps IH]; [done|].
  cbn [consumeResult]. rewrite (run_eta (_ l)). run.
  assert (Hp : consumePayload result p fwd l = (fwd, l, [])).
  { unfold consumePayload. rewrite (run_eta (_ l)). run.
    unfold shouldDropPayload. run. rewrite Hdrop. by run. }
  rewrite !Hp. run. rewrite IH. by run.
Qed.

(** C5.  The dispatcher submits no payload of a result whose check name is in
    the drop list: it takes the result off the queue and leaves the forwarder
    and the collector untouched.  The check itself is run, and its results
    queued, as with an empty drop list. *)
Theorem dropped_result_never_submitted (result : checkResult) (fwd : F)
    (l : Collector) (c : Check) (q : Queue) (start : Z) :
  name result ∈ dropCheckPayloads l ->
  consumeResult result (payloads result) fwd l = (fwd, l, []) /\
  (forall items,
     submits_of (trace_of (consumePayloads (result :: items) fwd l))
     = submits_of (trace_of (consumePayloads items fwd l))) /\
  trace_of (runCheck c q start l)
  = trace_of (runCheck c q start (set_dropCheckPayloads [] l)).
Proof.
  intros Hdrop.
  pose proof (consumeResult_dropped result (payloads result) fwd l Hdrop)
    as Hres.
  repeat split; [done| |].
  - intros items. cbn [consumePayloads]. run. rewrite !Hres. by run.
  - symmetry. apply runCheck_ignores_drop_list.
Qed.

End Dispatch.

Lemma not_real_time_influencing_witness :
  let result := {| name := "process_discovery"; payloads := [];
                   sizeInBytes := 0 |} in
  let payload := {| body := [Byte.x01]; headers := [] |} in
  let l := Sample.collector [Sample.container_check] [] in
  (NoDup (dispatch_names (H:=Sample.env)) /\
   name result ∈ [Pod_Name (Env:=Sample.env);
                  ProcessDiscovery_Name (Env:=Sample.env);
                  ProcessEvents_Name (Env:=Sample.env)]) /\
  realTimeEnabled
    (state_of (consumePayload (H:=Sample.env) (Forwarder0:=Sample.two_domains)
                 result payload tt l)) = false.
Proof.
  intros result payload l.
  assert (Hnd : NoDup (dispatch_names (H:=Sample.env)))
    by compute_done.
  assert (Hname : name result ∈ [Pod_Name (Env:=Sample.env);
                                 ProcessDiscovery_Name (Env:=Sample.env);
                                 ProcessEvents_Name (Env:=Sample.env)])
    by compute_done.
  split; [by split|].
  apply (not_real_time_influencing (H:=Sample.env)
           (Forwarder0:=Sample.two_domains) result payload tt l Hnd Hname).
Defined.

Lemma dropped_result_never_submitted_witness :
  let payload := {| body := [Byte.x01]; headers := [] |} in
  let result := {| name := "connections"; payloads := [payload; payload];
                   sizeInBytes := 2 |} in
  let l := Sample.collector [Sample.container_check] ["pod"; "connections"] in
  name result ∈ dropCheckPayloads l /\
  consumeResult (H:=Sample.env) (Forwarder0:=Sample.two_domains)
    result (payloads result) tt l = (tt, l, []).
Proof.
  intros payload result l.
  assert (Hdrop : name result ∈ dropCheckPayloads l)
    by compute_done.
  split; [exact Hdrop|].
  apply (dropped_result_never_submitted (H:=Sample.env)
           (Forwarder0:=Sample.two_domains) result tt l
           Sample.container_check processResults 0 Hdrop).
Defined.

(** * Further properties of the controller *)

Lemma updateRTStatus_trace (ss : list CollectorStatus) (l : Collector) :
  trace_of (updateRTStatus ss l)
  = transition_line (realTimeEnabled l) (scan ss)
    ++ (if bool_decide (maxInterval (scan ss) <> realTimeInterval l)
        then replicate (length (enabledChecks l))
               (EvSend (new_interval (maxInterval (scan ss))))
             ++ [EvLog (IntervalUpdated (new_interval (maxInterval (scan ss))))]
        else []).
Proof.
  unfold updateRTStatus, transition_line. fold (scan ss). set (sc := scan ss).
  destruct l as [en g c rc chk iv rr dp]. run. cbn [realTimeEnabled].
  destruct en, (shouldEnableRT sc); cbn [andb negb]; run;
    cbn [realTimeInterval set_realTimeEnabled]; case_bool_decide; run;
    rewrite ?broadcast_trace, ?broadcast_state; unfold new_interval;
    cbn [realTimeInterval set_realTimeInterval set_realTimeEnabled
         enabledChecks];
    try done; case_bool_decide; run;
    cbn [realTimeInterval set_realTimeInterval set_realTimeEnabled
         enabledChecks]; by rewrite ?app_nil_r.
Qed.

Lemma set_realTimeEnabled_same l : set_realTimeEnabled (realTimeEnabled l) l = l.
Proof. by destruct l. Qed.

Lemma updateRTStatus_unit ss l : value_of (updateRTStatus ss l) = tt.
Proof. by destruct (value_of _). Qed.

(** X1.  A batch that asks for a positive interval is absorbed by one call of
    [updateRTStatus]: a second call with the same batch changes nothing, logs
    nothing and sends nothing to the schedulers. *)
Theorem updateRTStatus_idempotent (l : Collector) (s : CollectorStatus)
    (rest : list CollectorStatus) :
  0 < batch_max s rest ->
  let l1 := state_of (updateRTStatus (s :: rest) l) in
  updateRTStatus (s :: rest) l1 = (tt, l1, []).
Proof.
  intros Hpos l1.
  assert (Hen : realTimeEnabled l1 = shouldEnableRT (scan (s :: rest))).
  { subst l1. rewrite updateRTStatus_state. by case_bool_decide. }
  assert (Hiv : realTimeInterval l1 = maxInterval (scan (s :: rest))).
  { subst l1. rewrite updateRTStatus_state, scan_maxInterval.
    unfold new_interval. repeat case_bool_decide; cbn in *; lia. }
  rewrite (run_eta (updateRTStatus _ l1)).
  rewrite updateRTStatus_unit, updateRTStatus_state, updateRTStatus_trace.
  rewrite <- Hen, <- Hiv, set_realTimeEnabled_same.
  case_bool_decide as Hc; [by destruct Hc|].
  unfold transition_line. rewrite <- Hen. by destruct (realTimeEnabled l1).
Qed.

(** X2.  A batch that asks for no positive interval makes [updateRTStatus]
    store two seconds and send them once per enabled check on every call, also
    when two seconds are what is stored already. *)
Theorem updateRTStatus_rebroadcasts_default (l : Collector) (s : CollectorStatus)
    (rest : list CollectorStatus) :
  0 < realTimeInterval l ->
  batch_max s rest <= 0 ->
  let r := updateRTStatus (s :: rest) l in
  realTimeInterval (state_of r) = 2 * Second /\
  sends_of (trace_of r) = replicate (length (enabledChecks l)) (2 * Second).
Proof.
  intros Hpos Hmax r. subst r.
  rewrite updateRTStatus_state, updateRTStatus_sends, scan_maxInterval.
  rewrite Z.max_l by done. rewrite bool_decide_eq_true_2 by lia. done.
Qed.

Lemma foldl_max_scale (ds : list Z) (a k : Z) :
  0 <= k -> foldl Z.max (a * k) ((fun d => d * k) <$> ds) = foldl Z.max a ds * k.
Proof.
  intros Hk. revert a. induction ds as [|d ds IH]; intros a; [done|].
  cbn [fmap list_fmap foldl]. rewrite <- IH. f_equal. nia.
Qed.

(** X3.  For [int32] intervals the conversion to a duration does not
    overflow: when the largest requested interval is positive,
    [updateRTStatus] stores exactly that many seconds. *)
Theorem updateRTStatus_stores_max_seconds (l : Collector) (s : CollectorStatus)
    (rest : list CollectorStatus) :
  Forall (fun s => in_int32 (Interval s)) (s :: rest) ->
  0 < interval_max s rest ->
  batch_max s rest = interval_max s rest * Second /\
  realTimeInterval (state_of (updateRTStatus (s :: rest) l))
  = interval_max s rest * Second.
Proof.
  intros Hall Hpos.
  assert (Hmax : batch_max s rest = interval_max s rest * Second).
  { unfold batch_max, interval_max. apply Forall_cons in Hall as [Hs Hrest].
    rewrite seconds_int32 by done.
    rewrite <- foldl_max_scale by (unfold Second; lia). f_equal.
    rewrite <- list_fmap_compose. apply Forall_fmap_ext_1.
    eapply Forall_impl; [exact Hrest|]. intros x Hx. cbn. by apply seconds_int32. }
  split; [done|].
  rewrite updateRTStatus_state, scan_maxInterval, Hmax. unfold new_interval, Second in *.
  repeat case_bool_decide; cbn; lia.
Qed.




(** * Further properties of queueing *)

Lemma header_Get_Set_eq k v h : header_Get k (header_Set k v h) = v.
Proof. cbn. by rewrite decide_True. Qed.

Lemma header_Get_filter_ne k k' (h : Header) :
  k <> k' -> header_Get k (filter (fun kv => kv.1 <> k') h) = header_Get k h.
Proof.
  intros Hne. unfold Header in *. induction h as [|[k0 v0] h IH]; [done|].
  destruct (decide (k0 = k')) as [->|Hk0].
  - rewrite filter_cons_False by (cbn; tauto). cbn [header_Get].
    by rewrite decide_False.
  - rewrite filter_cons_True by done. cbn [header_Get]. by rewrite IH.
Qed.

Lemma header_Get_Set_ne k k' v h :
  k <> k' -> header_Get k (header_Set k' v h) = header_Get k h.
Proof.
  intros Hne. unfold header_Set. cbn [header_Get].
  rewrite decide_False by done. by apply header_Get_filter_ne.
Qed.

Lemma total_bytes_nonneg ps : 0 <= total_bytes ps.
Proof. induction ps as [|p ps IH]; cbn; [done|]. fold (total_bytes ps). lia. Qed.

Lemma payload_bytes_total ps size :
  0 <= size -> size + total_bytes ps < 2 ^ 63 ->
  payload_bytes size ps = size + total_bytes ps.
Proof.
  revert size. induction ps as [|p ps IH]; intros size Hs Hsum;
    cbn [payload_bytes foldl total_bytes foldr] in *.
  - lia.
  - fold (total_bytes ps) in *.
    fold (payload_bytes (int64 (size + Z.of_nat (length (body p)))) ps).
    pose proof (total_bytes_nonneg ps).
    rewrite int64_small by lia. rewrite IH; lia.
Qed.

Section BB.
Context `{Env}.

Lemma encoded_length conf start name ms :
  (length (encoded conf start name ms) + length (encode_log ms))%nat = length ms.
Proof.
  induction ms as [|m ms IH]; [done|].
  cbn [encoded encode_log omap list_omap].
  destruct (EncodePayload m); cbn [length]; fold (encoded conf start name ms);
    fold (encode_log ms); lia.
Qed.

Lemma encoded_all_failed conf start name ms :
  Forall (fun m => exists e, EncodePayload m = Failed e) ms ->
  encoded conf start name ms = [].
Proof.
  induction 1 as [|m ms [e He] _ IH]; [done|].
  cbn [encoded omap list_omap]. by rewrite He.
Qed.

(** X5.  For a non-empty list of messages [messagesToResults] adds exactly one
    result, under the given name and on the given queue, whatever the encoder
    does: every message yields either a payload or an error line, and when no
    message encodes the result is still added, with no payload and size zero. *)
Theorem messagesToResults_one_result (start : Z) (nm : string)
    (m : MessageBody) (ms : list MessageBody) (q : Queue) (l : Collector) :
  exists r,
    adds_of (trace_of (messagesToResults start nm (m :: ms) q l)) = [(q, r)] /\
    name r = nm /\
    (length (payloads r)
     + length (filter (fun e => is_log e) (trace_of (messagesToResults start nm (m :: ms) q l))))%nat
    = length (m :: ms) /\
    (Forall (fun m => exists e, EncodePayload m = Failed e) (m :: ms) ->
     payloads r = [] /\ sizeInBytes r = 0).
Proof.
  rewrite messagesToResults_run. run. rewrite queue_trace_adds.
  eexists. split; [reflexivity|]. cbn [name payloads sizeInBytes].
  split; [done|]. split.
  - unfold queue_trace. rewrite !filter_app. cbn [queued fmap list_fmap].
    rewrite (filter_cons_False _ (EvAdd _ _)) by (cbn; tauto).
    rewrite (filter_cons_False _ (EvProcContainerCount _)) by (cbn; tauto).
    rewrite !filter_nil, !app_nil_r.
    assert (Hf : filter (fun e => is_log e) (encode_log (m :: ms)) = encode_log (m :: ms)).
    { generalize (m :: ms). intros xs. induction xs as [|x xs IH]; [done|].
      cbn [encode_log omap list_omap]. destruct (EncodePayload x); [done|].
      rewrite filter_cons_True by done. f_equal. exact IH. }
    rewrite Hf. apply encoded_length.
  - intros Hall. by rewrite encoded_all_failed.
Qed.

(** X6.  The weight of a queued result is the number of bytes of the bodies
    of its payloads (as long as that number fits an [int64]). *)
Theorem result_weight_is_total_bytes (start : Z) (nm : string)
    (ms : list MessageBody) (q : Queue) (l : Collector) :
  Forall (fun qr => total_bytes (payloads qr.2) < 2 ^ 63 ->
                    Weight qr.2 = total_bytes (payloads qr.2))
    (adds_of (trace_of (messagesToResults start nm ms q l))).
Proof.
  rewrite messagesToResults_run. run. rewrite queue_trace_adds.
  destruct ms as [|m ms]; cbn [queued]; [constructor|].
  generalize (encoded (cfg l) start nm (m :: ms)). intros ps.
  apply Forall_singleton. cbn [snd Weight sizeInBytes payloads]. intros Hsum.
  pose proof (total_bytes_nonneg ps).
  rewrite payload_bytes_total by lia. apply int64_small. lia.
Qed.

Lemma extraHeaders_base conf start name m :
  let h := extraHeaders conf start name m in
  header_Get TimestampHeader h = pretty start /\
  header_Get HostHeader h = HostName conf /\
  header_Get ProcessVersionHeader h = AgentVersionNumber /\
  header_Get ContainerCountHeader h = pretty (getContainerCount m) /\
  header_Get ContentTypeHeader h = ProtobufContentType.
Proof.
  unfold extraHeaders.
  destruct (OrchestrationCollectionEnabled conf), GetClusterID as [cid|e],
    (is_manifest m), (decide (name = ProcessEvents_Name));
    try destruct (decide (cid <> String.EmptyString));
    cbv zeta;
    repeat split;
    repeat first [ rewrite header_Get_Set_eq | rewrite header_Get_Set_ne by done ];
    reflexivity.
Qed.

Lemma extraHeaders_encoding conf start name m :
  header_Get ContentEncodingHeader (extraHeaders conf start name m)
  = if OrchestrationCollectionEnabled conf && is_manifest m
    then ZSTDContentEncoding else String.EmptyString.
Proof.
  unfold extraHeaders.
  destruct (OrchestrationCollectionEnabled conf), GetClusterID as [cid|e],
    (is_manifest m), (decide (name = ProcessEvents_Name));
    try destruct (decide (cid <> String.EmptyString));
    cbv zeta; cbn [andb];
    repeat first [ rewrite header_Get_Set_eq | rewrite header_Get_Set_ne by done ];
    reflexivity.
Qed.

Lemma elem_of_encoded conf start name ms p :
  p ∈ encoded conf start name ms ->
  exists m b, m ∈ ms /\ EncodePayload m = Ok b /\
    p = {| body := b; headers := extraHeaders conf start name m |}.
Proof.
  unfold encoded. rewrite list_elem_of_omap. intros (m & Hm & Hp).
  destruct (EncodePayload m) as [b|e] eqn:He; [|done].
  injection Hp as <-. by exists m, b.
Qed.

(** X7.  Every payload of a queued result carries the start time, the host
    name, the agent version and the protobuf content type, and the body and
    container count of one of the messages. *)
Theorem queued_payload_headers (start : Z) (nm : string)
    (ms : list MessageBody) (q : Queue) (l : Collector) :
  Forall (fun qr =>
    Forall (fun p =>
      header_Get TimestampHeader (headers p) = pretty start /\
      header_Get HostHeader (headers p) = HostName (cfg l) /\
      header_Get ProcessVersionHeader (headers p) = AgentVersionNumber /\
      header_Get ContentTypeHeader (headers p) = ProtobufContentType /\
      exists m, m ∈ ms /\ EncodePayload m = Ok (body p) /\
        header_Get ContainerCountHeader (headers p)
        = pretty (getContainerCount m))
      (payloads qr.2))
    (adds_of (trace_of (messagesToResults start nm ms q l))).
Proof.
  rewrite messagesToResults_run. run. rewrite queue_trace_adds.
  destruct ms as [|m0 ms]; cbn [queued]; [constructor|].
  apply Forall_singleton. cbn [snd payloads]. apply Forall_forall.
  intros p (m & b & Hm & Hb & ->)%elem_of_encoded. cbn [headers body].
  destruct (extraHeaders_base (cfg l) start nm m) as (-> & -> & -> & -> & ->).
  repeat split. by exists m.
Qed.

(** X8.  A payload that [messagesToResults] builds for the pod check is
    submitted as an orchestrator manifest exactly when orchestration collection
    is enabled and its message is a manifest, and as an orchestrator check
    otherwise; its responses never reach [updateRTStatus]. *)
Theorem pod_payload_route (conf : AgentConfig) (start : Z) (m : MessageBody)
    (b : list Byte.byte) (update : bool) :
  NoDup dispatch_names ->
  ZSTDContentEncoding <> String.EmptyString ->
  route Pod_Name {| body := b; headers := extraHeaders conf start Pod_Name m |} update
  = Some (if OrchestrationCollectionEnabled conf && is_manifest m
          then SubmitOrchestratorManifests
          else SubmitOrchestratorChecks K8sPod, false).
Proof.
  intros Hnd Hz.
  unfold dispatch_names in Hnd. rewrite !NoDup_cons, !not_elem_of_cons in Hnd.
  destruct Hnd as ((?&?&?&?&?&?&?) & (?&?&?&?&?&?) & (?&?&?&?&?) & (?&?&?&?) & (?&?&?) & _).
  unfold route. rewrite !decide_False by done. rewrite decide_True by done.
  cbn [headers]. rewrite extraHeaders_encoding.
  destruct (_ && _); [by rewrite decide_True|by rewrite decide_False].
Qed.
End BB.

Lemma int32_add_l a b : int32 (int32 a + b) = int32 (a + b).
Proof.
  unfold int32, wrap_signed. f_equal.
  replace ((a + 2 ^ (32 - 1)) `mod` 2 ^ 32 - 2 ^ (32 - 1) + b + 2 ^ (32 - 1))
    with ((a + 2 ^ (32 - 1)) `mod` 2 ^ 32 + b) by lia.
  rewrite Z.add_mod_idemp_l by done. f_equal. lia.
Qed.

Lemma int32_window x y :
  int32 x = int32 y -> - 2 ^ 32 < x - y < 2 ^ 32 -> x = y.
Proof.
  unfold int32, wrap_signed. change (2 ^ (32 - 1)) with 2147483648.
  change (2 ^ 32) with 4294967296. intros Heq Hwin.
  Z.div_mod_to_equations. lia.
Qed.

Section BB2.
Context `{Env}.

Lemma run_times_groupID N c q start l :
  groupID (state_of (run_times N c q start l)) = int32 (groupID l + Z.of_nat N)
  \/ (N = 0%nat /\ groupID (state_of (run_times N c q start l)) = groupID l).
Proof.
  induction N as [|N IH]; [by right|]. left.
  cbn [run_times]. run. rewrite runCheck_run. run.
  unfold after_run. cbn [groupID set_groupID].
  destruct IH as [->|[-> ->]].
  - rewrite int32_add_l. f_equal. lia.
  - f_equal.
Qed.

Lemma run_times_runs N c q start l :
  runs_of (trace_of (run_times N c q start l))
  = (fun i => (Name c, int32 (groupID l + Z.of_nat i))) <$> seq 1 N.
Proof.
  induction N as [|N IH]; [done|].
  cbn [run_times]. run. rewrite runCheck_run. run.
  rewrite runs_of_app, IH, run_trace_runs, seq_S, fmap_app. f_equal.
  cbn [fmap list_fmap].
  destruct (run_times_groupID N c q start l) as [->|[-> ->]].
  - rewrite int32_add_l. do 3 f_equal. lia.
  - done.
Qed.

(** X9.  Consecutive runs hand the check consecutive group ids, wrapping as an
    [int32]: up to [2 ^ 32] runs in a row no group id is used twice. *)
Theorem group_ids_are_fresh (N : nat) (c : Check) (q : Queue)
    (start : nat -> Z) (l : Collector) :
  Z.of_nat N <= 2 ^ 32 ->
  NoDup (runs_of (trace_of (run_times N c q start l))).
Proof.
  intros HN. rewrite run_times_runs. apply NoDup_fmap_2_strong; [|apply NoDup_seq].
  intros i j Hi%elem_of_seq Hj%elem_of_seq [= Heq].
  apply int32_window in Heq; lia.
Qed.

(** X10.  [runCheck] advances the run counter of its check on every run,
    failed runs included, and leaves the counters of other names alone. *)
Theorem runCheck_counts_every_run (c : Check) (q : Queue) (start : Z)
    (l : Collector) (other : string) :
  other <> Name c ->
  let l' := state_of (runCheck c q start l) in
  runCounters l' !! Name c = Some (next_counter (runCounters l) (Name c)) /\
  runCounters l' !! other = runCounters l !! other.
Proof.
  intros Hne l'. subst l'. rewrite runCheck_run. run.
  unfold after_run. cbn [runCounters set_groupID set_runCounters].
  split; [apply lookup_insert_eq|by apply lookup_insert_ne].
Qed.

(** X11.  A dual-mode run whose invocation fails queues nothing, stores no
    output, logs no duration and, unlike a failed basic run, leaves the run
    counters as they were. *)
Theorem failed_dual_run_is_skipped (c : CheckWithRealTime) (q rtq : Queue)
    (options : RunOptions) (start : Z) (l : Collector) (drawn : nat) (err : string) :
  RunWithOptions c (groupID l) options = (drawn, Failed err) ->
  let r := runCheckWithRealTime c q rtq options start l in
  adds_of (trace_of r) = [] /\ stores_of (trace_of r) = [] /\
  duration_logs (trace_of r) = [] /\
  runCounters (state_of r) = runCounters l.
Proof.
  intros Hrun r. subst r. unfold runCheckWithRealTime. run. rewrite Hrun. run.
  rewrite !draw_ids_run. run.
  destruct (drawn_ids_frame drawn l) as [_ ->]. done.
Qed.

(** X12.  When the run counter of a standard check is at the largest [int32]
    the next run has the smallest one, and a run whose counter is below five,
    as every counter is after the wrap, logs its duration. *)
Theorem wrapped_counter_logs_every_run (c : Check) (q : Queue) (start : Z)
    (l : Collector) (rc : Z) (ms : list MessageBody) :
  RealTime c = false ->
  Run c (int32 (groupID l + 1)) = Ok ms ->
  runCounters l !! Name c = Some rc ->
  (rc = 2 ^ 31 - 1 ->
     duration_logs (trace_of (runCheck c q start l)) = [- 2 ^ 31]) /\
  (- 2 ^ 31 <= rc < 4 ->
     duration_logs (trace_of (runCheck c q start l)) = [rc + 1]).
Proof.
  intros Hrt Hrun Hrc. rewrite runCheck_run. run.
  unfold run_trace. cbv zeta. rewrite Hrun, Hrt, !duration_logs_app.
  destruct (results_trace_quiet (cfg l) start (Name c) ms q) as (_ & _ & _ & ->).
  rewrite duration_line_logs. unfold next_counter. rewrite Hrc.
  split.
  - intros ->. done.
  - intros Hrange. rewrite (int32_small (rc + 1)) by (unfold in_int32; lia).
    cbn [duration_logs omap list_omap app].
    rewrite (bool_decide_eq_true_2 (rc + 1 < 5)) by lia. done.
Qed.

Lemma queued_shape conf start nm ms q :
  Forall (fun qr => qr.1 = q /\ name qr.2 = nm) (queued conf start nm ms q)
  /\ (length (queued conf start nm ms q) <= 1)%nat.
Proof.
  destruct ms; cbn [queued length]; (split; [by repeat constructor|lia]).
Qed.

(** X13.  Whatever its outcome, [runCheck] adds results only to the queue it
    was given and only under the name of its check: at most two, and at most
    one for a check other than the pod check. *)
Theorem runCheck_adds_own_results (c : Check) (q : Queue) (start : Z) (l : Collector) :
  let adds := adds_of (trace_of (runCheck c q start l)) in
  Forall (fun qr => qr.1 = q /\ name qr.2 = Name c) adds /\
  (length adds <= 2)%nat /\
  (Name c <> PodCheckName -> (length adds <= 1)%nat).
Proof.
  intros adds. subst adds. rewrite runCheck_run. run.
  unfold run_trace. cbv zeta.
  destruct (Run c _) as [ms|err]; [|by repeat split; cbn; try lia; constructor].
  rewrite !adds_of_app.
  destruct (duration_line_quiet (Name c) (next_counter (runCounters l) (Name c))) as (Hl & _).
  assert (Hlast : adds_of (if RealTime c then [] else duration_line (Name c) (next_counter (runCounters l) (Name c))) = [])
    by (by destruct (RealTime c)).
  rewrite Hlast, app_nil_r. cbn [adds_of omap list_omap app]. fold (adds_of (results_trace (cfg l) start (Name c) ms q)).
  unfold results_trace. case_decide as Hpod.
  - rewrite adds_of_app, queue_trace_adds.
    set (half := (length ms / 2)%nat).
    destruct (queued_shape (cfg l) start (Name c) (take half ms) q) as [F1 L1].
    destruct (queued_shape (cfg l) start (Name c) (drop half ms) q) as [F2 L2].
    destruct (IsManifestCollectionEnabled (cfg l)); rewrite ?queue_trace_adds;
      (split; [apply Forall_app; split; [done|by (done || constructor)]|]);
      rewrite length_app; cbn [adds_of omap list_omap length]; split; (lia || done).
  - rewrite queue_trace_adds.
    destruct (queued_shape (cfg l) start (Name c) ms q) as [F1 L1].
    split; [done|]. split; [lia|done].
Qed.
End BB2.

(** * Further properties of the dispatcher *)

Lemma sends_of_cons e t : sends_of (e :: t) = sends_of [e] ++ sends_of t.
Proof. apply (sends_of_app [e]). Qed.

Lemma submits_of_cons e t :
  submits_of (e :: t) = submits_of [e] ++ submits_of t.
Proof. apply (submits_of_app [e]). Qed.

Section Responses.
Context `{Env}.

Lemma readResponseStatuses_acc checkName rs acc l :
  value_of (readResponseStatuses checkName rs acc l)
  = acc ++ value_of (readResponseStatuses checkName rs [] l).
Proof.
  revert acc. induction rs as [|r rs IH]; intros acc.
  { cbn [readResponseStatuses]. run. by rewrite app_nil_r. }
  cbn [readResponseStatuses].
  repeat (case_match || case_bool_decide); run;
    rewrite ?app_nil_l; rewrite ?(IH (acc ++ _)), ?(IH [_]), <- ?app_assoc;
    first [ apply IH | done ].
Qed.

Lemma readResponseStatuses_state checkName rs acc l :
  state_of (readResponseStatuses checkName rs acc l) = l.
Proof. by destruct (readResponseStatuses_run checkName rs acc l). Qed.

Lemma readResponseStatuses_failed checkName r rs acc l :
  failed_response r ->
  value_of (readResponseStatuses checkName (r :: rs) acc l)
  = value_of (readResponseStatuses checkName rs acc l).
Proof.
  intros [[e He]|Hcode]; cbn [readResponseStatuses].
  - rewrite He. by run.
  - destruct (Err r); run; [done|].
    rewrite bool_decide_eq_true_2 by done. by run.
Qed.

Lemma readResponseStatuses_app checkName rs1 rs2 l :
  value_of (readResponseStatuses checkName (rs1 ++ rs2) [] l)
  = value_of (readResponseStatuses checkName rs1 [] l)
    ++ value_of (readResponseStatuses checkName rs2 [] l).
Proof.
  induction rs1 as [|r rs1 IH]; [done|].
  cbn [app readResponseStatuses].
  repeat (case_match || case_bool_decide); run; try exact IH;
    rewrite ?app_nil_l, (readResponseStatuses_acc _ (rs1 ++ rs2)),
      (readResponseStatuses_acc _ rs1), IH; by rewrite app_assoc.
Qed.

Lemma readResponseStatuses_length checkName rs l :
  (length (value_of (readResponseStatuses checkName rs [] l)) <= length rs)%nat.
Proof.
  induction rs as [|r rs IH]; [done|].
  cbn [readResponseStatuses length].
  repeat (case_match || case_bool_decide); run; try lia;
    rewrite ?app_nil_l, readResponseStatuses_acc, length_app; cbn [length];
    lia.
Qed.

(** X14.  [readResponseStatuses] reads each response on its own and keeps
    their order: the statuses of [rs1 ++ rs2] are those of [rs1] followed by
    those of [rs2], at most one per response; a response with a transport error
    or a status code from 300 on yields none and does not affect the others;
    for the pod and the process-events check no status is read at all. *)
Theorem statuses_are_read_per_response (checkName : string)
    (rs1 rs2 : list Response) (r : Response) (l : Collector) :
  let read rs := value_of (readResponseStatuses checkName rs [] l) in
  read (rs1 ++ rs2) = read rs1 ++ read rs2 /\
  (length (read rs1) <= length rs1)%nat /\
  (failed_response r -> read (rs1 ++ r :: rs2) = read (rs1 ++ rs2)) /\
  (ignoreResponseBody checkName = true -> read rs1 = []).
Proof.
  intros read. subst read. cbv beta. repeat split.
  - apply readResponseStatuses_app.
  - apply readResponseStatuses_length.
  - intros Hr. rewrite !readResponseStatuses_app. f_equal.
    by apply readResponseStatuses_failed.
  - intros Hig. induction rs1 as [|r1 rs1 IH]; [done|].
    cbn [readResponseStatuses]. rewrite Hig.
    repeat (case_match || case_bool_decide); run; exact IH.
Qed.

End Responses.

Section Dispatching.
Context `{Env} {F : Type} `{!Forwarder F}.

Lemma route_without_update nm payload sink u :
  route nm payload false = Some (sink, u) -> u = false.
Proof. unfold route. repeat case_decide; congruence. Qed.

Lemma route_rt_names nm payload u :
  nm ∈ rt_names -> exists sink, route nm payload u = Some (sink, u).
Proof.
  unfold rt_names. rewrite !elem_of_cons, elem_of_nil. unfold route.
  intros Hnm. repeat case_decide; try (by eexists); tauto.
Qed.

Lemma route_dispatch_names nm payload u :
  nm ∈ dispatch_names -> is_Some (route nm payload u).
Proof.
  unfold dispatch_names. rewrite !elem_of_cons, elem_of_nil. unfold route.
  intros Hnm. repeat case_decide; try done; tauto.
Qed.

Lemma route_unknown nm payload u :
  nm ∉ dispatch_names -> route nm payload u = None.
Proof.
  unfold dispatch_names. rewrite !not_elem_of_cons. unfold route.
  intros (?&?&?&?&?&?&?&?&_). by rewrite !decide_False.
Qed.

(** What a payload that is not dropped does, by the outcome of its
    submission. *)
Lemma consumePayload_routed result payload (fwd : F) l sink u :
  name result ∉ dropCheckPayloads l ->
  route (name result) payload (runRealTime l) = Some (sink, u) ->
  consumePayload result payload fwd l
  = match Submit fwd sink payload with
    | (fwd', Failed err) =>
        (fwd', l, [EvSubmit sink payload; EvLog (UnableToSubmit err)])
    | (fwd', Ok responses) =>
        let read := readResponseStatuses (name result) responses [] l in
        let statuses := value_of read in
        if bool_decide (0 < length statuses)%nat && u
        then (fwd', state_of (updateRTStatus statuses l),
              EvSubmit sink payload :: trace_of read
              ++ trace_of (updateRTStatus statuses l))
        else (fwd', l, EvSubmit sink payload :: trace_of read)
    end.
Proof.
  intros Hdrop Hroute. unfold consumePayload. rewrite (run_eta (_ l)). run.
  unfold shouldDropPayload. run.
  destruct (drop_loop _ _) eqn:Hd; [by apply drop_loop_elem in Hd|].
  rewrite Hroute. run.
  destruct (Submit fwd sink payload) as [fwd' [responses|err]]; run; [|done].
  rewrite !readResponseStatuses_state.
  case_bool_decide; destruct u; run; cbn [andb]; by rewrite ?app_nil_r.
Qed.

(** X15.  With real-time checks switched off ([runRealTime] false) no
    submission changes the collector or sends to the schedulers, whatever the
    check and whatever the backend answers. *)
Theorem disabled_real_time_is_never_updated (result : checkResult)
    (payload : checkPayload) (fwd : F) (l : Collector) :
  runRealTime l = false ->
  state_of (consumePayload result payload fwd l) = l /\
  sends_of (trace_of (consumePayload result payload fwd l)) = [].
Proof.
  intros Hrt. unfold consumePayload. run. unfold shouldDropPayload. run.
  destruct (drop_loop _ _); run; [done|]. rewrite Hrt.
  destruct (route _ _ _) as [[sink u]|] eqn:Hroute; run; [|done].
  apply route_without_update in Hroute as ->.
  destruct (Submit fwd sink payload) as [fwd' [responses|err]]; run; [|done].
  destruct (readResponseStatuses_run (name result) responses [] l)
    as [Hst Hlog]. rewrite !Hst.
  apply logs_quiet in Hlog as (Hs & _). rewrite !sends_of_app, Hs.
  by case_bool_decide; run.
Qed.

(** X16.  A payload whose check name the dispatcher does not know is never
    handed to the forwarder: the error is logged, and forwarder and collector
    stay as they were. *)
Theorem unsupported_payload_is_skipped (result : checkResult)
    (payload : checkPayload) (fwd : F) (l : Collector) :
  name result ∉ dispatch_names ->
  name result ∉ dropCheckPayloads l ->
  consumePayload result payload fwd l
  = (fwd, l, [EvLog (UnableToSubmit
                       ("unsupported payload type: " +:+ name result))]).
Proof.
  intros Hunknown Hdrop. unfold consumePayload. rewrite (run_eta (_ l)). run.
  unfold shouldDropPayload. run.
  destruct (drop_loop _ _) eqn:Hd; [by apply drop_loop_elem in Hd|].
  rewrite route_unknown by done. by run.
Qed.

(** X17.  When the submission of a payload fails, or every response to it is
    a transport error or has a status code from 300 on, the collector is left
    as it was: real-time mode is not switched off and nothing is broadcast. *)
Theorem no_usable_status_keeps_real_time (res : checkResult)
    (payload : checkPayload) (fwd fwd' : F) (l : Collector) (sink : Sink)
    (u : bool) (out : result (list Response)) :
  name res ∉ dropCheckPayloads l ->
  route (name res) payload (runRealTime l) = Some (sink, u) ->
  Submit fwd sink payload = (fwd', out) ->
  match out with
  | Failed _ => True
  | Ok responses => Forall failed_response responses
  end ->
  state_of (consumePayload res payload fwd l) = l /\
  sends_of (trace_of (consumePayload res payload fwd l)) = [] /\
  value_of (consumePayload res payload fwd l) = fwd'.
Proof.
  intros Hdrop Hroute Hsub Hout.
  rewrite (consumePayload_routed res payload fwd l sink u Hdrop Hroute), Hsub.
  destruct out as [responses|err]; [|done]. cbv zeta.
  assert (Hnone : value_of (readResponseStatuses (name res) responses [] l)
                  = []).
  { clear Hsub. induction Hout as [|r rs Hr _ IH]; [done|].
    by rewrite readResponseStatuses_failed. }
  rewrite Hnone. cbn [length bool_decide andb]. 
  rewrite bool_decide_eq_false_2 by (cbn; lia). cbn [andb]. run.
  destruct (readResponseStatuses_run (name res) responses [] l)
    as [_ Hlog]. apply logs_quiet in Hlog as (Hs & _).
  by rewrite sends_of_cons, Hs.
Qed.

Lemma route_no_update nm payload u :
  nm ∈ dispatch_names ->
  u = false \/ nm ∉ rt_names ->
  exists sink, route nm payload u = Some (sink, false).
Proof.
  intros Hname [->|Hrt].
  - destruct (route_dispatch_names nm payload false Hname) as [[sink u] Hr].
    rewrite Hr. apply route_without_update in Hr as ->. by exists sink.
  - revert Hname Hrt. unfold dispatch_names, rt_names.
    rewrite !not_elem_of_cons, !elem_of_cons, elem_of_nil.
    intros Hname (?&?&?&?&?&_). unfold route.
    rewrite !decide_False by done.
    repeat case_decide; try (by eexists); tauto.
Qed.

(** What the body of the loop does with a payload whose responses cannot
    reach [updateRTStatus]. *)
Lemma consumePayload_no_update result payload (fwd : F) l :
  name result ∈ dispatch_names ->
  name result ∉ dropCheckPayloads l ->
  runRealTime l = false \/ name result ∉ rt_names ->
  let r := consumePayload result payload fwd l in
  (submits_of (trace_of r)).*2 = [payload] /\ state_of r = l.
Proof.
  intros Hname Hdrop Hoff.
  destruct (route_no_update (name result) payload (runRealTime l) Hname Hoff)
    as [sink Hroute].
  cbv zeta.
  rewrite (consumePayload_routed result payload fwd l sink false Hdrop Hroute).
  destruct (Submit fwd sink payload) as [fwd' [responses|err]]; [|done].
  cbv zeta. rewrite andb_false_r. run.
  destruct (readResponseStatuses_run (name result) responses [] l)
    as [_ Hlog]. apply logs_quiet in Hlog as (_ & Hs & _).
  by rewrite submits_of_cons, Hs.
Qed.

(** X19.  With real-time checks switched off, or for a check whose responses
    never reach [updateRTStatus] (pod, process discovery, process events),
    every payload of a result that is not dropped is handed to the forwarder
    exactly once, in the order of the result, also after submissions that
    failed; the collector is left as it was. *)
Theorem every_payload_is_submitted_once (result : checkResult)
    (ps : list checkPayload) (fwd : F) (l : Collector) :
  name result ∈ dispatch_names ->
  name result ∉ dropCheckPayloads l ->
  runRealTime l = false \/ name result ∉ rt_names ->
  (submits_of (trace_of (consumeResult result ps fwd l))).*2 = ps /\
  state_of (consumeResult result ps fwd l) = l.
Proof.
  intros Hname Hdrop Hoff. revert fwd.
  induction ps as [|p ps IH]; intros fwd; [done|].
  cbn [consumeResult]. run.
  destruct (consumePayload_no_update result p fwd l Hname Hdrop Hoff)
    as [Hp Hst].
  rewrite submits_of_app, fmap_app, Hp, !Hst. cbn [app].
  destruct (IH (value_of (consumePayload result p fwd l))) as [-> ->]. done.
Qed.

End Dispatching.

(** * Further properties of the scheduler *)

Section Scheduling.
Context `{Env}.

Lemma after_run_frame c l :
  cfg (after_run c l) = cfg l /\ runRealTime (after_run c l) = runRealTime l
  /\ realTimeEnabled (after_run c l) = realTimeEnabled l.
Proof. done. Qed.

(** The loop over the events up to the closing of [exit]. *)
Lemma runner_loop_open c q (evs : list RunnerEvent) ticker l :
  let r := runner_loop c q ticker (before_close evs) l in
  let runs_now := negb (RealTime c) || (runRealTime l && realTimeEnabled l) in
  length (runs_of (trace_of r))
    = (if runs_now then ticks (before_close evs) else 0%nat) /\
  value_of r
    = Some (if RealTime c then last_interval ticker (before_close evs)
            else ticker) /\
  cfg (state_of r) = cfg l /\ runRealTime (state_of r) = runRealTime l /\
  realTimeEnabled (state_of r) = realTimeEnabled l.
Proof.
  cbv zeta. revert ticker l.
  induction evs as [|ev evs IH]; intros ticker l.
  { cbn. by destruct (negb _ || _), (RealTime c). }
  destruct ev as [now|d| |]; cbn [before_close runner_loop]; run.
  - rewrite runner_step_tick.
    destruct (negb (RealTime c) || runRealTime l && realTimeEnabled l) eqn:Hr;
      run.
    + destruct (IH ticker (after_run c l)) as (IH1 & IH2 & IH3 & IH4 & IH5).
      destruct (after_run_frame c l) as (Hc & Hrr & Hen).
      rewrite Hrr, Hen, Hr in IH1.
      rewrite runs_of_app, length_app, run_trace_runs, IH1, IH2, IH3, IH4, IH5.
      unfold ticks. cbn [last_interval foldl filter list_filter].
      rewrite decide_True by done. cbn [length]. by destruct (RealTime c).
    + destruct (IH ticker l) as (IH1 & IH2 & IH3 & IH4 & IH5).
      rewrite Hr in IH1. rewrite ?app_nil_l, IH1, IH2, IH3, IH4, IH5.
      unfold ticks. cbn [last_interval foldl]. by destruct (RealTime c).
  - cbn [runner_step]. run.
    destruct (IH (if RealTime c then d else ticker) l)
      as (IH1 & IH2 & IH3 & IH4 & IH5).
    rewrite ?app_nil_l, IH1, IH2, IH3, IH4, IH5. unfold ticks.
    cbn [last_interval foldl filter list_filter].
    rewrite decide_False by (cbn; tauto). by destruct (RealTime c).
  - cbn [runner_step]. run.
    destruct (IH ticker l) as (IH1 & IH2 & IH3 & IH4 & IH5).
    rewrite ?app_nil_l, IH1, IH2, IH3, IH4, IH5. unfold ticks.
    cbn [last_interval foldl filter list_filter].
    by rewrite decide_False by (cbn; tauto).
  - cbn. by destruct (negb _ || _), (RealTime c).
Qed.

(** After the closing of [exit] the loop has returned: what follows is not
    handled. *)
Lemma runner_loop_closed c q (evs rest : list RunnerEvent) ticker l :
  ExitClosed ∈ evs ->
  runner_loop c q ticker (evs ++ rest) l
  = (None, state_of (runner_loop c q ticker (before_close evs) l),
     trace_of (runner_loop c q ticker (before_close evs) l)).
Proof.
  revert ticker l. induction evs as [|ev evs IH]; intros ticker l Hin.
  { by apply elem_of_nil in Hin. }
  destruct ev as [now|d| |]; cbn [app before_close runner_loop].
  4: { rewrite (run_eta (_ l)). by run. }
  all: apply elem_of_cons in Hin as [Hin|Hin]; [done|].
  all: rewrite (run_eta (_ l)); run.
  - rewrite runner_step_tick. destruct (negb _ || _); run;
      rewrite IH by done; by run.
  - cbn [runner_step]. run. rewrite IH by done. by run.
  - cbn [runner_step]. run. rewrite IH by done. by run.
Qed.

(** The events after the closing of [exit] add nothing to what the loop
    does. *)
Lemma runner_loop_before_close c q (evs : list RunnerEvent) ticker l :
  trace_of (runner_loop c q ticker evs l)
  = trace_of (runner_loop c q ticker (before_close evs) l) /\
  state_of (runner_loop c q ticker evs l)
  = state_of (runner_loop c q ticker (before_close evs) l).
Proof.
  revert ticker l. induction evs as [|ev evs IH]; intros ticker l; [done|].
  destruct ev as [now|d| |]; cbn [before_close runner_loop]; run.
  - rewrite runner_step_tick. destruct (negb _ || _); run.
    + destruct (IH ticker (after_run c l)) as [-> ->]. done.
    + destruct (IH ticker l) as [-> ->]. done.
  - cbn [runner_step]. run.
    destruct (IH (if RealTime c then d else ticker) l) as [-> ->]. done.
  - cbn [runner_step]. run. destruct (IH ticker l) as [-> ->]. done.
  - done.
Qed.

(** X20.  With a check interval that [time.NewTicker] accepts, the loop of
    [basicRunner] runs a standard check once at the start and then once per
    tick it receives before [exit] is closed. *)
Theorem runs_follow_ticks (c : Check) (q : Queue) (start : Z)
    (evs : list RunnerEvent) (l : Collector) :
  RealTime c = false ->
  ticker_period (CheckInterval (cfg l) (Name c)) ->
  length (runs_of (trace_of (basicRunner c q start evs l)))
  = (1 + ticks (before_close evs))%nat.
Proof.
  intros Hrt _. unfold basicRunner. run.
  rewrite runs_of_app, app_nil_l, length_app, Hrt. cbn [negb]. run.
  rewrite runCheck_run. run. rewrite run_trace_runs.
  destruct (runner_loop_before_close c q evs
              (CheckInterval (cfg (after_run c l)) (Name c)) (after_run c l))
    as [-> _].
  destruct (runner_loop_open c q evs
              (CheckInterval (cfg (after_run c l)) (Name c)) (after_run c l))
    as (Hruns & _). rewrite Hrt in Hruns. cbn [negb orb] in *.
  by rewrite Hruns.
Qed.

(** X21.  Once [exit] is closed the loop has returned: the events after the
    closing are not handled. *)
Theorem closing_exit_ends_the_loop (c : Check) (q : Queue) (start : Z)
    (evs rest : list RunnerEvent) (l : Collector) :
  ExitClosed ∈ evs ->
  let r := basicRunner c q start (evs ++ rest) l in
  value_of r = None /\
  trace_of r = trace_of (basicRunner c q start (before_close evs) l) /\
  state_of r = state_of (basicRunner c q start (before_close evs) l).
Proof.
  intros Hin. cbv zeta. unfold basicRunner. run.
  rewrite !(runner_loop_closed c q evs rest) by done. by run.
Qed.

Lemma last_interval_period d (evs : list RunnerEvent) :
  ticker_period d -> interval_periods evs ->
  ticker_period (last_interval d evs).
Proof.
  intros Hd Hevs. revert d Hd.
  induction Hevs as [|ev evs Hev _ IH]; intros d Hd; [done|].
  cbn [last_interval foldl]. apply IH. by destruct ev.
Qed.

(** X22.  With a configured check interval and received intervals that
    [time.NewTicker] accepts (positive ones), while [exit] is open the ticker
    of a standard check keeps the configured period whatever intervals arrive,
    and the ticker of a real-time check has the period of the last interval
    received; either way it is a period a ticker accepts. *)
Theorem ticker_follows_intervals (c : Check) (q : Queue) (start : Z)
    (evs : list RunnerEvent) (l : Collector) :
  ExitClosed ∉ evs ->
  ticker_period (CheckInterval (cfg l) (Name c)) ->
  (RealTime c = true -> interval_periods evs) ->
  exists period,
    value_of (basicRunner c q start evs l) = Some period /\
    period = (if RealTime c
              then last_interval (CheckInterval (cfg l) (Name c)) evs
              else CheckInterval (cfg l) (Name c)) /\
    ticker_period period.
Proof.
  intros Hopen Hconf Hevs.
  assert (Hbc : before_close evs = evs).
  { clear Hevs. induction evs as [|ev evs IH]; [done|].
    apply not_elem_of_cons in Hopen as [Hev Hopen].
    destruct ev; cbn [before_close]; try (f_equal; by apply IH). done. }
  eexists. split; [|split; [reflexivity|]].
  - rewrite <- Hbc at 1. unfold basicRunner. run.
    match goal with
    | |- value_of (runner_loop _ _ ?t _ ?l') = _ =>
        destruct (runner_loop_open c q evs t l') as (_ & -> & _)
    end.
    rewrite Hbc.
    destruct (RealTime c); cbn [negb]; rewrite ?runCheck_run; by run.
  - destruct (RealTime c); [|done].
    apply last_interval_period; [done|by apply Hevs].
Qed.

(** X23.  [resultsQueueForCheck] sends every name it does not single out to
    the process queue; with pairwise distinct check names, the real-time
    process and container checks share the real-time queue, connections, pod
    and process events have a queue each, and process, container and process
    discovery share the process queue. *)
Theorem results_queues_by_name :
  (forall nm,
     nm ∉ [Pod_Name; Process_RealTimeName; RTContainer_Name;
           Connections_Name; ProcessEvents_Name] ->
     resultsQueueForCheck nm = processResults) /\
  (NoDup dispatch_names ->
     resultsQueueForCheck Process_Name = processResults /\
     resultsQueueForCheck Process_RealTimeName = rtProcessResults /\
     resultsQueueForCheck Container_Name = processResults /\
     resultsQueueForCheck RTContainer_Name = rtProcessResults /\
     resultsQueueForCheck Connections_Name = connectionsResults /\
     resultsQueueForCheck Pod_Name = podResults /\
     resultsQueueForCheck ProcessDiscovery_Name = processResults /\
     resultsQueueForCheck ProcessEvents_Name = eventResults).
Proof.
  split.
  - intros nm. rewrite !not_elem_of_cons. intros (?&?&?&?&?&_).
    unfold resultsQueueForCheck. repeat case_decide; try done; tauto.
  - unfold dispatch_names. rewrite !NoDup_cons, !not_elem_of_cons.
    intros ((?&?&?&?&?&?&?&_) & (?&?&?&?&?&?&_) & (?&?&?&?&?&_)
            & (?&?&?&?&_) & (?&?&?&_) & (?&?&_) & (?&_) & _).
    unfold resultsQueueForCheck.
    repeat split; repeat case_decide; try done; intuition congruence.
Qed.

End Scheduling.

(** X24.  With positive defaults every queue is built with a positive item
    limit, whatever the configuration says, and every queue but the pod queue
    with a positive weight limit, which is also the forwarders' retry limit; a
    positive configured queue size is used as it is. *)
Theorem queue_limits_are_positive (s : QueueSettings) (q : Queue) :
  0 < DefaultProcessQueueSize s ->
  0 < DefaultProcessRTQueueSize s ->
  0 < DefaultProcessQueueBytes s < 2 ^ 63 ->
  process_queue_bytes s < 2 ^ 63 ->
  0 < (queueLimits s q).1 /\
  (q <> podResults ->
     0 < (queueLimits s q).2 /\
     (queueLimits s q).2 = forwarderRetryQueueMaxBytes s) /\
  (0 < queue_size s -> q <> rtProcessResults ->
     (queueLimits s q).1 = queue_size s).
Proof.
  intros Hsize Hrt Hbytes Hconf.
  unfold queueLimits, forwarderRetryQueueMaxBytes, or_default.
  destruct q; cbn [fst snd]; repeat case_bool_decide;
    rewrite ?int64_small by lia; repeat split; intros; try done; lia.
Qed.

(** * The further properties on the sample agent *)

Lemma updateRTStatus_idempotent_witness :
  let l := Sample.collector [Sample.container_check] [] in
  let s := {| ActiveClients := 0; Interval := 5 |} in
  let rest := [{| ActiveClients := 3; Interval := 10 |}] in
  0 < batch_max s rest /\
  sends_of (trace_of (updateRTStatus (s :: rest)
                        (state_of (updateRTStatus (s :: rest) l)))) = [].
Proof.
  intros l s rest.
  assert (Hpos : 0 < batch_max s rest) by reflexivity.
  split; [exact Hpos|].
  by rewrite (updateRTStatus_idempotent l s rest Hpos).
Defined.

Lemma updateRTStatus_rebroadcasts_default_witness :
  let l := Sample.collector [Sample.container_check;
                             Sample.rtcontainer_check] [] in
  let s := {| ActiveClients := 2; Interval := 0 |} in
  (0 < realTimeInterval l /\ batch_max s [] <= 0) /\
  sends_of (trace_of (updateRTStatus [s] l)) = [2 * Second; 2 * Second].
Proof.
  intros l s.
  assert (Hpos : 0 < realTimeInterval l) by reflexivity.
  assert (Hmax : batch_max s [] <= 0) by (vm_compute; discriminate).
  split; [by split|].
  apply (updateRTStatus_rebroadcasts_default l s [] Hpos Hmax).
Defined.

Lemma updateRTStatus_stores_max_seconds_witness :
  let l := Sample.collector [Sample.container_check] [] in
  let s := {| ActiveClients := 0; Interval := 5 |} in
  let rest := [{| ActiveClients := 3; Interval := 10 |}] in
  (Forall (fun s => in_int32 (Interval s)) (s :: rest) /\
   0 < interval_max s rest) /\
  realTimeInterval (state_of (updateRTStatus (s :: rest) l)) = 10 * Second.
Proof.
  intros l s rest.
  assert (Hall : Forall (fun s => in_int32 (Interval s)) (s :: rest))
    by (repeat constructor; unfold in_int32; cbn; lia).
  assert (Hpos : 0 < interval_max s rest) by reflexivity.
  split; [by split|].
  apply (updateRTStatus_stores_max_seconds l s rest Hall Hpos).
Defined.


Lemma pod_payload_route_witness :
  (NoDup (dispatch_names (H:=Sample.env)) /\
   ZSTDContentEncoding (Env:=Sample.env) <> String.EmptyString) /\
  route (H:=Sample.env) "pod"
    {| body := [];
       headers := extraHeaders (H:=Sample.env) (Sample.conf true) 9 "pod"
                    (CollectorManifest "m1") |} true
  = Some (SubmitOrchestratorManifests, false).
Proof.
  assert (Hnd : NoDup (dispatch_names (H:=Sample.env))) by compute_done.
  assert (Hz : ZSTDContentEncoding (Env:=Sample.env) <> String.EmptyString)
    by discriminate.
  split; [by split|].
  apply (pod_payload_route (H:=Sample.env) (Sample.conf true) 9
           (CollectorManifest "m1") [] true Hnd Hz).
Defined.

Lemma group_ids_are_fresh_witness :
  let l := Sample.collector [Sample.container_check] [] in
  Z.of_nat 3 <= 2 ^ 32 /\
  NoDup (runs_of (trace_of (run_times (H:=Sample.env) 3 Sample.container_check
                              processResults (fun i => Z.of_nat i) l))).
Proof.
  intros l.
  assert (HN : Z.of_nat 3 <= 2 ^ 32) by (vm_compute; discriminate).
  split; [exact HN|].
  apply (group_ids_are_fresh (H:=Sample.env) 3 Sample.container_check
           processResults (fun i => Z.of_nat i) l HN).
Defined.

Lemma runCheck_counts_every_run_witness :
  let c := Sample.failing "container" false in
  let l := Sample.collector [c] [] in
  "pod" <> Name c /\
  runCounters (state_of (runCheck (H:=Sample.env) c processResults 9 l))
    !! Name c = Some 1.
Proof.
  intros c l.
  assert (Hne : "pod" <> Name c) by discriminate.
  split; [exact Hne|].
  apply (runCheck_counts_every_run (H:=Sample.env) c processResults 9 l "pod"
           Hne).
Defined.

Lemma failed_dual_run_is_skipped_witness :
  let c := {| asCheck := Sample.failing "process" false;
              RealTimeName := "rtprocess";
              RunWithOptions := fun _ _ => (2%nat, Failed "boom") |} in
  let l := Sample.collector [asCheck c] [] in
  let options := {| RunStandard := true; RunRealTime := true |} in
  RunWithOptions c (groupID l) options = (2%nat, Failed "boom") /\
  adds_of (trace_of (runCheckWithRealTime (H:=Sample.env) c processResults
                       rtProcessResults options 9 l)) = [].
Proof.
  intros c l options.
  assert (Hrun : RunWithOptions c (groupID l) options = (2%nat, Failed "boom"))
    by reflexivity.
  split; [exact Hrun|].
  apply (failed_dual_run_is_skipped (H:=Sample.env) c processResults
           rtProcessResults options 9 l 2 "boom" Hrun).
Defined.

Lemma wrapped_counter_logs_every_run_witness :
  let c := Sample.container_check in
  let l := set_runCounters {[ "container" := 2 ^ 31 - 1 ]}
             (Sample.collector [c] []) in
  (RealTime c = false /\
   Run c (int32 (groupID l + 1)) = Ok [CollectorContainer ["c1"]] /\
   runCounters l !! Name c = Some (2 ^ 31 - 1)) /\
  duration_logs (trace_of (runCheck (H:=Sample.env) c processResults 9 l))
  = [- 2 ^ 31].
Proof.
  intros c l.
  assert (Hrt : RealTime c = false) by reflexivity.
  assert (Hrun : Run c (int32 (groupID l + 1)) = Ok [CollectorContainer ["c1"]])
    by reflexivity.
  assert (Hrc : runCounters l !! Name c = Some (2 ^ 31 - 1))
    by (vm_compute; reflexivity).
  split; [by repeat split|].
  apply (wrapped_counter_logs_every_run (H:=Sample.env) c processResults 9 l
           (2 ^ 31 - 1) [CollectorContainer ["c1"]] Hrt Hrun Hrc).
  reflexivity.
Defined.

Lemma disabled_real_time_is_never_updated_witness :
  let result := {| name := "process"; payloads := []; sizeInBytes := 0 |} in
  let payload := {| body := [Byte.x01]; headers := [] |} in
  let l := NewCollectorWithChecks (Sample.conf false)
             [Sample.container_check] false 41 [] in
  runRealTime l = false /\
  state_of (consumePayload (H:=Sample.env) (Forwarder0:=Sample.two_domains)
              result payload tt l) = l.
Proof.
  intros result payload l.
  assert (Hrt : runRealTime l = false) by reflexivity.
  split; [exact Hrt|].
  apply (disabled_real_time_is_never_updated (H:=Sample.env)
           (Forwarder0:=Sample.two_domains) result payload tt l Hrt).
Defined.

Lemma unsupported_payload_is_skipped_witness :
  let result := {| name := "bogus"; payloads := []; sizeInBytes := 0 |} in
  let payload := {| body := [Byte.x01]; headers := [] |} in
  let l := Sample.collector [Sample.container_check] ["pod"] in
  ((name result ∉ dispatch_names (H:=Sample.env)) /\
   (name result ∉ dropCheckPayloads l)) /\
  submits_of (trace_of (consumePayload (H:=Sample.env)
                          (Forwarder0:=Sample.two_domains)
                          result payload tt l)) = [].
Proof.
  intros result payload l.
  assert (Hunknown : name result ∉ dispatch_names (H:=Sample.env))
    by compute_done.
  assert (Hdrop : name result ∉ dropCheckPayloads l) by compute_done.
  split; [by split|].
  by rewrite (unsupported_payload_is_skipped (H:=Sample.env)
                (Forwarder0:=Sample.two_domains) result payload tt l
                Hunknown Hdrop).
Defined.

Lemma no_usable_status_keeps_real_time_witness :
  let down : Forwarder unit := fun _ _ _ =>
    (tt, Ok [ {| Domain := "a"; Body := [Byte.x00]; StatusCode := 503;
                 Err := None |};
              {| Domain := "b"; Body := [Byte.x00]; StatusCode := 0;
                 Err := Some "timeout" |} ]) in
  let res := {| name := "process"; payloads := []; sizeInBytes := 0 |} in
  let payload := {| body := [Byte.x01]; headers := [] |} in
  let l := set_realTimeEnabled true
             (Sample.collector [Sample.container_check] []) in
  ((name res ∉ dropCheckPayloads l) /\
   route (H:=Sample.env) (name res) payload (runRealTime l)
     = Some (SubmitProcessChecks, true)) /\
  state_of (consumePayload (H:=Sample.env) (Forwarder0:=down)
              res payload tt l) = l.
Proof.
  intros down res payload l.
  assert (Hdrop : name res ∉ dropCheckPayloads l) by compute_done.
  assert (Hroute : route (H:=Sample.env) (name res) payload (runRealTime l)
                   = Some (SubmitProcessChecks, true)) by reflexivity.
  split; [by split|].
  refine (proj1 (no_usable_status_keeps_real_time (H:=Sample.env)
                   (Forwarder0:=down) res payload tt tt l SubmitProcessChecks
                   true _ Hdrop Hroute eq_refl _)).
  apply Forall_cons; split; [right; cbn; lia|].
  apply Forall_cons; split; [left; by eexists|constructor].
Defined.

Lemma every_payload_is_submitted_once_witness :
  let p1 := {| body := [Byte.x01]; headers := [] |} in
  let p2 := {| body := [Byte.x02]; headers := [] |} in
  let result := {| name := "process_discovery"; payloads := [p1; p2];
                   sizeInBytes := 2 |} in
  let l := Sample.collector [Sample.container_check] ["pod"] in
  ((name result ∈ dispatch_names (H:=Sample.env)) /\
   (name result ∉ dropCheckPayloads l) /\
   (runRealTime l = false \/ name result ∉ rt_names (H:=Sample.env))) /\
  (submits_of (trace_of (consumeResult (H:=Sample.env)
                           (Forwarder0:=Sample.two_domains)
                           result (payloads result) tt l))).*2 = [p1; p2].
Proof.
  intros p1 p2 result l.
  assert (Hname : name result ∈ dispatch_names (H:=Sample.env))
    by compute_done.
  assert (Hdrop : name result ∉ dropCheckPayloads l) by compute_done.
  assert (Hoff : runRealTime l = false
                 \/ name result ∉ rt_names (H:=Sample.env))
    by (right; compute_done).
  split; [by repeat split|].
  exact (proj1 (every_payload_is_submitted_once (H:=Sample.env)
                  (Forwarder0:=Sample.two_domains) result (payloads result)
                  tt l Hname Hdrop Hoff)).
Defined.

Lemma closing_exit_ends_the_loop_witness :
  let evs := [Tick 1; ExitClosed] in
  let l := Sample.collector [Sample.container_check] [] in
  (ExitClosed ∈ evs) /\
  value_of (basicRunner (H:=Sample.env) Sample.container_check processResults
              0 (evs ++ [Tick 2; Tick 3]) l) = None.
Proof.
  intros evs l.
  assert (Hin : ExitClosed ∈ evs)
    by (apply elem_of_cons; right; apply elem_of_cons; by left).
  split; [exact Hin|].
  apply (closing_exit_ends_the_loop (H:=Sample.env) Sample.container_check
           processResults 0 evs [Tick 2; Tick 3] l Hin).
Defined.

Lemma runs_follow_ticks_witness :
  let evs := [Tick 1; RtInterval (3 * Second); Tick 2; ExitClosed; Tick 3] in
  let l := Sample.collector [Sample.container_check] [] in
  (RealTime Sample.container_check = false /\
   ticker_period (CheckInterval (cfg l) (Name Sample.container_check))) /\
  length (runs_of (trace_of (basicRunner (H:=Sample.env)
                               Sample.container_check processResults 0
                               evs l))) = 3%nat.
Proof.
  intros evs l.
  assert (Hrt : RealTime Sample.container_check = false) by reflexivity.
  assert (Hconf : ticker_period
                    (CheckInterval (cfg l) (Name Sample.container_check)))
    by reflexivity.
  split; [by split|].
  apply (runs_follow_ticks (H:=Sample.env) Sample.container_check
           processResults 0 evs l Hrt Hconf).
Defined.

Lemma ticker_follows_intervals_witness :
  let evs := [RtInterval (3 * Second); Tick 1; RtInterval (5 * Second)] in
  let l := Sample.collector [Sample.rtcontainer_check] [] in
  ((ExitClosed ∉ evs) /\
   ticker_period (CheckInterval (cfg l) (Name Sample.rtcontainer_check)) /\
   (RealTime Sample.rtcontainer_check = true -> interval_periods evs)) /\
  exists period,
    value_of (basicRunner (H:=Sample.env) Sample.rtcontainer_check
                rtProcessResults 0 evs l) = Some period /\
    period = 5 * Second /\ ticker_period period.
Proof.
  intros evs l.
  assert (Hopen : ExitClosed ∉ evs).
  { unfold evs. rewrite !not_elem_of_cons. repeat split; try discriminate.
    apply not_elem_of_nil. }
  assert (Hconf : ticker_period
                    (CheckInterval (cfg l) (Name Sample.rtcontainer_check)))
    by reflexivity.
  assert (Hevs : RealTime Sample.rtcontainer_check = true
                 -> interval_periods evs)
    by (intros _; repeat constructor).
  split; [by repeat split|].
  apply (ticker_follows_intervals (H:=Sample.env) Sample.rtcontainer_check
           rtProcessResults 0 evs l Hopen Hconf Hevs).
Defined.

Lemma queue_limits_are_positive_witness :
  let s := {| queue_size := 0; rt_queue_size := -3;
              process_queue_bytes := 0; PodQueueBytes := 15000000;
              DefaultProcessQueueSize := 256;
              DefaultProcessRTQueueSize := 5;
              DefaultProcessQueueBytes := 60000000 |} in
  (0 < DefaultProcessQueueSize s /\ 0 < DefaultProcessRTQueueSize s /\
   0 < DefaultProcessQueueBytes s < 2 ^ 63 /\
   process_queue_bytes s < 2 ^ 63) /\
  0 < (queueLimits s rtProcessResults).1.
Proof.
  intros s.
  assert (H1 : 0 < DefaultProcessQueueSize s) by reflexivity.
  assert (H2 : 0 < DefaultProcessRTQueueSize s) by reflexivity.
  assert (H3 : 0 < DefaultProcessQueueBytes s < 2 ^ 63) by (split; reflexivity).
  assert (H4 : process_queue_bytes s < 2 ^ 63) by reflexivity.
  split; [by repeat split|].
  exact (proj1 (queue_limits_are_positive s rtProcessResults H1 H2 H3 H4)).
Defined.

(** * The cadence of the duration log over runs that may fail *)

Section FailedRuns.
Context `{Env}.





End FailedRuns.


